(** * mbed-os-example-cellular: the connect-with-retry loop, the echo
      transaction, the progress indicator and the entry point of
      [main.cpp], embedded as state-passing functions over an abstract
      cellular interface. *)

From Equations Require Import Equations.
From Stdlib Require Import ZArith List String Ascii Bool Lia.
From Stdlib Require Import DecimalString.
From Stdlib Require DecimalFacts DecimalPos.
Import ListNotations.

Local Open Scope string_scope.
Local Open Scope list_scope.
Local Open Scope Z_scope.

(** ** Types and constants of the network socket API *)

(** [nsapi_error_t] and [nsapi_size_or_error_t] are signed ints. *)
Definition nsapi_error_t := Z.
Definition nsapi_size_or_error_t := Z.

(** Values of the [nsapi_error] enumeration of Mbed OS ([mbed.h] is not
    part of this repository). *)
Definition NSAPI_ERROR_OK : nsapi_error_t := 0.
Definition NSAPI_ERROR_NO_CONNECTION : nsapi_error_t := -3004.
Definition NSAPI_ERROR_DNS_FAILURE : nsapi_error_t := -3009.
Definition NSAPI_ERROR_AUTH_FAILURE : nsapi_error_t := -3011.

(** [#define UDP 0] / [#define TCP 1], the values of
    [MBED_CONF_APP_SOCK_TYPE]. *)
Inductive sock_type := UDP | TCP.

(** [#define RETRY_COUNT 3] *)
Definition RETRY_COUNT : Z := 3.

(** [const char *host_name] and [const int port]. *)
Definition host_name : string := "echo.mbedcloudtesting.com".
Definition port : Z := 7.

(** [#define PRINT_TEXT_LENGTH 128] *)
Definition PRINT_TEXT_LENGTH : nat := 128.

(** A [uint8_t] holds its value modulo 2^8. *)
Definition uint8 (z : Z) : Z := z mod 256.
(** [SocketAddress::set_port] takes a [uint16_t]. *)
Definition uint16 (z : Z) : Z := z mod 65536.

(** [SocketAddress]: a resolved address (absent until resolved) and a
    port. *)
Record SocketAddress := mkSocketAddress {
  sa_addr : option string;
  sa_port : Z
}.

(** A default-constructed [SocketAddress]. *)
Definition SocketAddress_default : SocketAddress :=
  {| sa_addr := None; sa_port := 0 |}.

Definition set_port (p : Z) (a : SocketAddress) : SocketAddress :=
  {| sa_addr := sa_addr a; sa_port := uint16 p |}.

(** ** Build configuration: the [MBED_CONF_*] macros and the target ABI *)

Record config := mkConfig {
  MBED_CONF_APP_SOCK_TYPE : sock_type;
  MBED_CONF_MBED_TRACE_ENABLE : bool;
  MBED_CONF_APP_MODEM_TRACE : bool;
  (* NULL when not defined *)
  MBED_CONF_APP_CELLULAR_SIM_PIN : option string;
  MBED_CONF_APP_APN : option string;
  MBED_CONF_APP_USERNAME : option string;
  MBED_CONF_APP_PASSWORD : option string;
  (* the size of a pointer to char on the target, in bytes *)
  sizeof_char_ptr : nat;
  (* the bytes that follow the literal "TEST" and its terminator in memory *)
  bytes_after_echo_string : string
}.

(** ** Observable events

    Every call that leaves [main.cpp] is recorded, with its arguments
    and, where the program looks at it, its result. [EvTraceOpen],
    [EvTraceClose] and [EvTrInfo] stand for the calls of [trace_open],
    [trace_close] and [tr_info]; what they show is up to the trace
    library. [EvSockDestroy] is the destructor of the local socket
    object, which C++ runs when [test_send_recv] returns. *)
Inductive event :=
| EvTraceOpen
| EvTraceClose
| EvPrint (s : string)
| EvTrInfo (ip : option string)
| EvWait (seconds : Z)
| EvThreadStart
| EvModemDebugOn (on : bool)
| EvSetSimPin (pin : option string)
| EvSetCredentials (apn uname pwd : option string)
| EvConnect (ret : nsapi_error_t)
| EvSockOpen (ty : sock_type) (ret : nsapi_error_t)
| EvGetHostByName (host : string) (ret : nsapi_error_t)
| EvSockSetTimeout (ms : Z)
| EvSockConnect (addr : SocketAddress) (ret : nsapi_error_t)
| EvSockSend (data : string) (ret : nsapi_size_or_error_t)
| EvSockSendTo (addr : SocketAddress) (data : string)
               (ret : nsapi_size_or_error_t)
| EvSockRecv (size : Z) (ret : nsapi_size_or_error_t)
| EvSockRecvFrom (size : Z) (ret : nsapi_size_or_error_t)
| EvSockClose
| EvSockDestroy.

(** ** The cellular interface and its socket stack

    [EasyCellularConnection] / [OnboardCellularInterface], [TCPSocket]
    and [UDPSocket] are external: their behaviour is a deterministic
    machine over a state [I] that the program drives through these
    operations. [is_connected] and [get_ip_address] read the state, the
    others may change it. The socket operations act on the one socket
    of [test_send_recv]. *)
Class CellularInterface (I : Type) := {
  is_connected : I -> bool;
  connect : I -> nsapi_error_t * I;
  get_ip_address : I -> option string;
  gethostbyname : string -> SocketAddress -> I ->
                  nsapi_error_t * SocketAddress * I;
  modem_debug_on : bool -> I -> I;
  set_sim_pin : option string -> I -> I;
  set_credentials : option string -> option string -> option string -> I -> I;
  socket_open : sock_type -> I -> nsapi_error_t * I;
  socket_set_timeout : Z -> I -> I;
  socket_connect : SocketAddress -> I -> nsapi_error_t * I;
  socket_send : string -> I -> nsapi_size_or_error_t * I;
  socket_sendto : SocketAddress -> string -> I -> nsapi_size_or_error_t * I;
  socket_recv : Z -> I -> nsapi_size_or_error_t * I;
  socket_recvfrom : SocketAddress -> Z -> I ->
                    nsapi_size_or_error_t * SocketAddress * I;
  socket_close : I -> I;
  (* the destructor of the socket object *)
  socket_destroy : I -> I;
  (* what the rest of the system does to the interface while the calling
     thread sleeps *)
  elapse : Z -> I -> I
}.

(** The program state: the interface, the global [print_text] buffer
    and the events so far. *)
Record World (I : Type) := mkWorld {
  iface : I;
  print_text : string;
  events : list event
}.
Arguments mkWorld {I}.
Arguments iface {I}.
Arguments print_text {I}.
Arguments events {I}.

(** ** A state monad over [World] *)

Definition M (I A : Type) : Type := World I -> A * World I.

Definition ret {I A} (a : A) : M I A := fun w => (a, w).
Definition bind {I A B} (m : M I A) (k : A -> M I B) : M I B :=
  fun w => let (a, w') := m w in k a w'.

Declare Scope prog_scope.
Delimit Scope prog_scope with prog.
Notation "x <- m ;; k" := (bind m (fun x => k))
  (at level 61, m at next level, right associativity) : prog_scope.
Notation "' p <- m ;; k" := (bind m (fun 'p => k))
  (at level 61, p strict pattern, m at next level, right associativity)
  : prog_scope.
Notation "m ;; k" := (bind m (fun _ => k))
  (at level 61, right associativity) : prog_scope.

(** The line feed of the C literals. *)
Definition LF : string := String "010" EmptyString.

(** [%d] of a C int. *)
Definition fmt_d (z : Z) : string := NilZero.string_of_int (Z.to_int z).

Section Program.

Context {I : Type} {CI : CellularInterface I}.
Variable cfg : config.

Local Open Scope prog_scope.

Definition emit (e : event) : M I unit :=
  fun w => (tt, mkWorld (iface w) (print_text w) (events w ++ [e])).

(** Lift an interface operation that returns a value. *)
Definition call {A} (op : I -> A * I) (ev : A -> event) : M I A :=
  fun w => let (a, i') := op (iface w) in
           (a, mkWorld i' (print_text w) (events w ++ [ev a])).

(** Lift an interface operation that returns nothing. *)
Definition call_ (op : I -> I) (ev : event) : M I unit :=
  fun w => (tt, mkWorld (op (iface w)) (print_text w) (events w ++ [ev])).

(** Read the interface without changing it. *)
Definition query {A} (q : I -> A) : M I A := fun w => (q (iface w), w).

(** [print_function]: the text reaches the console. *)
Definition print_function (input_string : string) : M I unit :=
  emit (EvPrint input_string).

(** [snprintf(print_text, PRINT_TEXT_LENGTH, ...)]: at most
    [PRINT_TEXT_LENGTH - 1] characters are stored. *)
Definition snprintf_print_text (formatted : string) : M I unit :=
  fun w => (tt, mkWorld (iface w)
                        (substring 0 (PRINT_TEXT_LENGTH - 1)%nat formatted)
                        (events w)).

(** [print_function(print_text)] *)
Definition print_print_text : M I unit :=
  fun w => print_function (print_text w) w.

(** *** do_connect *)

(** How one turn of the [while] loop of [do_connect] ends. *)
Inductive loop_exit :=
| Return (retcode : nsapi_error_t)   (* return retcode; *)
| Break                              (* the loop is left *)
| Continue (retry_counter : Z).      (* continue; with the new counter *)

(** One turn of [while (!iface.is_connected()) { ... }], the test of the
    condition included. *)
Definition do_connect_iteration (retry_counter : Z) : M I loop_exit :=
  connected <- query is_connected ;;
  if negb connected then
    retcode <- call connect EvConnect ;;
    if retcode =? NSAPI_ERROR_AUTH_FAILURE then
      print_function
        (LF ++ LF ++ "Authentication Failure. Exiting application" ++ LF) ;;
      ret (Return retcode)
    else if negb (retcode =? NSAPI_ERROR_OK)
            && (retry_counter >? RETRY_COUNT) then
      snprintf_print_text
        (LF ++ LF ++ "Fatal connection failure: " ++ fmt_d retcode ++ LF) ;;
      print_print_text ;;
      ret (Return retcode)
    else if negb (retcode =? NSAPI_ERROR_OK) then
      snprintf_print_text
        (LF ++ LF ++ "Couldn't connect: " ++ fmt_d retcode ++ ", will retry"
         ++ LF) ;;
      print_print_text ;;
      ret (Continue (uint8 (retry_counter + 1)))
    else
      ret Break
  else
    ret Break.

(** A value together with the proof that it is the value of [x]. *)
Definition inspect {A : Type} (x : A) : {y : A | x = y} := exist _ x eq_refl.

(** The measure of the loop: the turns the counter still allows. *)
Definition turns_left (retry_counter : Z) : nat :=
  Z.to_nat (RETRY_COUNT + 1 - retry_counter).

(** The [while] loop of [do_connect]: turns are taken until one ends in
    [return] or leaves the loop. *)
Equations? do_connect_loop (retry_counter : Z) (w : World I)
  : loop_exit * World I by wf (turns_left retry_counter) lt :=
do_connect_loop retry_counter w with
    inspect (do_connect_iteration retry_counter w) := {
  | exist _ (Continue rc', w') Hit => do_connect_loop rc' w'
  | exist _ (Return retcode, w') _ => (Return retcode, w')
  | exist _ (Break, w') _ => (Break, w') }.
Proof.
  (* a turn ends in [continue] only below the threshold, and raises the
     counter *)
  revert Hit. unfold do_connect_iteration, bind, query, call, ret.
  destruct (is_connected (iface w)); simpl; [discriminate|].
  destruct (connect (iface w)) as [retcode i'].
  destruct (retcode =? NSAPI_ERROR_AUTH_FAILURE); simpl; [discriminate|].
  destruct (retcode =? NSAPI_ERROR_OK); simpl; [discriminate|].
  destruct (retry_counter >? RETRY_COUNT) eqn:Hgt; simpl; [discriminate|].
  intros Hit; inversion Hit; subst.
  rewrite Z.gtb_ltb, Z.ltb_ge in Hgt.
  unfold turns_left, uint8, RETRY_COUNT in *.
  pose proof (Z.mod_pos_bound (retry_counter + 1) 256 eq_refl) as Hb.
  destruct (Z_lt_ge_dec retry_counter (-1)) as [Hneg|Hpos].
  - lia.
  - rewrite Z.mod_small by lia. lia.
Qed.

(** [do_connect]: the counter starts at 0; after the loop the
    established connection is announced and traced. *)
Definition do_connect : M I nsapi_error_t :=
  fun w =>
    match do_connect_loop 0 w with
    | (Return retcode, w') => (retcode, w')
    | (_, w') =>
        (print_function (LF ++ LF ++ "Connection Established." ++ LF) ;;
         ip <- query get_ip_address ;;
         emit (EvTrInfo ip) ;;
         ret NSAPI_ERROR_OK) w'
    end.

(** *** test_send_recv *)

(** The memory at [echo_string]: the literal, its terminator, and
    whatever follows. *)
Definition echo_string_memory : string :=
  "TEST" ++ String zero (bytes_after_echo_string cfg).

(** [(void* ) echo_string, sizeof(echo_string)]: [echo_string] is a
    pointer, so the length is the size of a pointer. *)
Definition echo_payload : string :=
  substring 0 (sizeof_char_ptr cfg) echo_string_memory.

(** [sizeof(recv_buf)] for [char recv_buf[4]]. *)
Definition sizeof_recv_buf : Z := 4.

(** [sock] is a local object: every [return] of [test_send_recv] runs
    its destructor. *)
Definition return_ {A} (v : A) : M I A :=
  call_ socket_destroy EvSockDestroy ;; ret v.

(** The part after the transport-specific exchange: close, then judge
    the received byte count. *)
Definition test_send_recv_tail (n : Z) : M I nsapi_error_t :=
  call_ socket_close EvSockClose ;;
  if n >? 0 then
    snprintf_print_text
      ("Received from echo server " ++ fmt_d n ++ " Bytes" ++ LF) ;;
    print_print_text ;;
    return_ 0
  else
    return_ (-1).

(** The exchange of [#if MBED_CONF_APP_SOCK_TYPE == TCP]. *)
Definition exchange_tcp (sock_addr : SocketAddress) : M I nsapi_error_t :=
  retcode <- call (socket_connect sock_addr) (EvSockConnect sock_addr) ;;
  if retcode <? 0 then
    snprintf_print_text
      ("TCPSocket.connect() fails, code: " ++ fmt_d retcode ++ LF) ;;
    print_print_text ;;
    return_ (-1)
  else
    snprintf_print_text
      ("TCP: connected with " ++ host_name ++ " server" ++ LF) ;;
    print_print_text ;;
    retcode <- call (socket_send echo_payload) (EvSockSend echo_payload) ;;
    if retcode <? 0 then
      snprintf_print_text
        ("TCPSocket.send() fails, code: " ++ fmt_d retcode ++ LF) ;;
      print_print_text ;;
      return_ (-1)
    else
      snprintf_print_text
        ("TCP: Sent " ++ fmt_d retcode ++ " Bytes to " ++ host_name ++ LF) ;;
      print_print_text ;;
      n <- call (socket_recv sizeof_recv_buf) (EvSockRecv sizeof_recv_buf) ;;
      test_send_recv_tail n.

(** The exchange of the [#else] branch (UDP). *)
Definition exchange_udp (sock_addr : SocketAddress) : M I nsapi_error_t :=
  retcode <- call (socket_sendto sock_addr echo_payload)
                  (EvSockSendTo sock_addr echo_payload) ;;
  if retcode <? 0 then
    snprintf_print_text
      ("UDPSocket.sendto() fails, code: " ++ fmt_d retcode ++ LF) ;;
    print_print_text ;;
    return_ (-1)
  else
    snprintf_print_text
      ("UDP: Sent " ++ fmt_d retcode ++ " Bytes to " ++ host_name ++ LF) ;;
    print_print_text ;;
    '(n, sender) <- call (socket_recvfrom sock_addr sizeof_recv_buf)
                    (fun r => EvSockRecvFrom sizeof_recv_buf (fst r)) ;;
    test_send_recv_tail n.

Definition test_send_recv : M I nsapi_error_t :=
  retcode <- call (socket_open (MBED_CONF_APP_SOCK_TYPE cfg))
                  (EvSockOpen (MBED_CONF_APP_SOCK_TYPE cfg)) ;;
  if negb (retcode =? NSAPI_ERROR_OK) then
    snprintf_print_text
      ("Socket.open() fails, code: " ++ fmt_d retcode ++ LF) ;;
    print_print_text ;;
    return_ (-1)
  else
    '(retcode, sock_addr) <-
       call (gethostbyname host_name SocketAddress_default)
            (fun r => EvGetHostByName host_name (fst r)) ;;
    if negb (retcode =? NSAPI_ERROR_OK) then
      snprintf_print_text
        ("Couldn't resolve remote host: " ++ host_name ++ ", code: "
         ++ fmt_d retcode ++ LF) ;;
      print_print_text ;;
      return_ (-1)
    else
      let sock_addr := set_port port sock_addr in
      call_ (socket_set_timeout 15000) (EvSockSetTimeout 15000) ;;
      match MBED_CONF_APP_SOCK_TYPE cfg with
      | TCP => exchange_tcp sock_addr
      | UDP => exchange_udp sock_addr
      end.

(** *** dot_event *)

(** One turn of [while (true)]: [true] when the loop goes on. *)
Definition dot_event_cycle : M I bool :=
  call_ (elapse 4) (EvWait 4) ;;
  connected <- query is_connected ;;
  if negb connected then
    print_function "." ;;
    ret true
  else
    ret false.

Inductive thread_status := Running | Terminated.

(** The thread watched for at most [cycles] turns of its loop. *)
Fixpoint dot_event (cycles : nat) : M I thread_status :=
  match cycles with
  | O => ret Running
  | S n =>
      again <- dot_event_cycle ;;
      if again then dot_event n else ret Terminated
  end.

(** *** main *)

Definition trace_open : M I unit := emit EvTraceOpen.
Definition trace_close : M I unit := emit EvTraceClose.

(** The code both failed tests of [main] fall through to. *)
Definition main_failure : M I Z :=
  print_function (LF ++ LF ++ "Failure. Exiting " ++ LF ++ LF) ;;
  trace_close ;;
  ret (-1).

(** What [main] does before it calls [do_connect]. The progress thread
    it starts runs beside it and is modelled by [dot_event]. *)
Definition main_setup : M I unit :=
  trace_open ;;
  print_function (LF ++ LF ++ "mbed-os-example-cellular" ++ LF) ;;
  call_ (modem_debug_on (MBED_CONF_APP_MODEM_TRACE cfg))
        (EvModemDebugOn (MBED_CONF_APP_MODEM_TRACE cfg)) ;;
  call_ (set_sim_pin (MBED_CONF_APP_CELLULAR_SIM_PIN cfg))
        (EvSetSimPin (MBED_CONF_APP_CELLULAR_SIM_PIN cfg)) ;;
  print_function ("PIN code set" ++ LF) ;;
  call_ (set_credentials (MBED_CONF_APP_APN cfg) (MBED_CONF_APP_USERNAME cfg)
                         (MBED_CONF_APP_PASSWORD cfg))
        (EvSetCredentials (MBED_CONF_APP_APN cfg) (MBED_CONF_APP_USERNAME cfg)
                          (MBED_CONF_APP_PASSWORD cfg)) ;;
  print_function ("Establishing connection" ++ LF) ;;
  if negb (MBED_CONF_MBED_TRACE_ENABLE cfg) then emit EvThreadStart
  else ret tt.

Definition main : M I Z :=
  main_setup ;;
  connected <- do_connect ;;
  if connected =? NSAPI_ERROR_OK then
    retcode <- test_send_recv ;;
    if retcode =? NSAPI_ERROR_OK then
      print_function (LF ++ LF ++ "Success. Exiting " ++ LF ++ LF) ;;
      trace_close ;;
      ret 0
    else
      main_failure
  else
    main_failure.

End Program.

(** ** A scripted modem

    A small interface whose answers are fixed in advance, to run the
    program on. *)
Module Sim.

Record modem := mkModem {
  (* what the coming calls of connect return; once used up, connect
     fails with NSAPI_ERROR_NO_CONNECTION *)
  connect_results : list nsapi_error_t;
  link_up : bool;
  (* the state of the link after each coming sleep of a watching thread *)
  link_changes : list bool;
  open_result : nsapi_error_t;
  dns_result : nsapi_error_t;
  tcp_connect_result : nsapi_error_t;
  send_result : nsapi_size_or_error_t;
  recv_result : nsapi_size_or_error_t;
  socket_opened : bool
}.

Definition with_link (m : modem) (results : list nsapi_error_t) (up : bool)
  : modem :=
  mkModem results up (link_changes m) (open_result m) (dns_result m)
          (tcp_connect_result m) (send_result m) (recv_result m)
          (socket_opened m).

Definition with_changes (m : modem) (changes : list bool) (up : bool) : modem :=
  mkModem (connect_results m) up changes (open_result m) (dns_result m)
          (tcp_connect_result m) (send_result m) (recv_result m)
          (socket_opened m).

Definition with_socket (m : modem) (opened : bool) : modem :=
  mkModem (connect_results m) (link_up m) (link_changes m) (open_result m)
          (dns_result m) (tcp_connect_result m) (send_result m)
          (recv_result m) opened.

Definition sim_connect (m : modem) : nsapi_error_t * modem :=
  match connect_results m with
  | [] => (NSAPI_ERROR_NO_CONNECTION, with_link m [] false)
  | r :: rest => (r, with_link m rest (r =? NSAPI_ERROR_OK))
  end.

Definition sim_gethostbyname (host : string) (a : SocketAddress) (m : modem)
  : nsapi_error_t * SocketAddress * modem :=
  if dns_result m =? NSAPI_ERROR_OK then
    (NSAPI_ERROR_OK, mkSocketAddress (Some "52.215.34.155") (sa_port a), m)
  else (dns_result m, a, m).

Definition sim_send (data : string) (m : modem)
  : nsapi_size_or_error_t * modem :=
  if send_result m <? 0 then (send_result m, m)
  else (Z.of_nat (String.length data), m).

Definition sim_elapse (seconds : Z) (m : modem) : modem :=
  match link_changes m with
  | [] => m
  | up :: rest => with_changes m rest up
  end.

#[global] Instance modem_interface : CellularInterface modem := {
  is_connected := link_up;
  connect := sim_connect;
  get_ip_address m := if link_up m then Some "10.64.0.2" else None;
  gethostbyname := sim_gethostbyname;
  modem_debug_on _ m := m;
  set_sim_pin _ m := m;
  set_credentials _ _ _ m := m;
  socket_open _ m := (open_result m,
                      with_socket m (open_result m =? NSAPI_ERROR_OK));
  socket_set_timeout _ m := m;
  socket_connect _ m := (tcp_connect_result m, m);
  socket_send := sim_send;
  socket_sendto _ := sim_send;
  socket_recv _ m := (recv_result m, m);
  socket_recvfrom a _ m := (recv_result m, a, m);
  socket_close m := with_socket m false;
  socket_destroy m := with_socket m false;
  elapse := sim_elapse
}.

(** A modem whose network answers well once the link is up; [results]
    scripts the calls of connect. *)
Definition healthy (results : list nsapi_error_t) : modem :=
  mkModem results false [] NSAPI_ERROR_OK NSAPI_ERROR_OK NSAPI_ERROR_OK 4 4
          false.

(** A modem that never connects. *)
Definition stubborn : modem := healthy [].

(** A modem whose link is already up. *)
Definition online : modem :=
  mkModem [] true [] NSAPI_ERROR_OK NSAPI_ERROR_OK NSAPI_ERROR_OK 4 4 false.

(** A modem on a network that cannot resolve names. *)
Definition dns_down : modem :=
  mkModem [] true [] NSAPI_ERROR_OK NSAPI_ERROR_DNS_FAILURE NSAPI_ERROR_OK 4 4
          false.

(** A modem whose link comes up during the third sleep of a watcher. *)
Definition waking : modem :=
  mkModem [] false [false; false; true] NSAPI_ERROR_OK NSAPI_ERROR_OK
          NSAPI_ERROR_OK 4 4 false.

Definition boot (m : modem) : World modem := mkWorld m "" [].

(** A 32-bit target (Arm Cortex-M), TCP, tracing off. *)
Definition cfg_tcp : config :=
  mkConfig TCP false false None None None None 4 "".
Definition cfg_udp : config :=
  mkConfig UDP false false None None None None 4 "".

End Sim.

(** ** Reading the events *)

(** The calls of connect among the events. *)
Definition is_connect (e : event) : bool :=
  match e with EvConnect _ => true | _ => false end.

Definition connect_attempts (evs : list event) : nat :=
  List.length (filter is_connect evs).

(** The events a run added: those of [w'] past the ones [w] already
    had. *)
Definition new_events {I} (w w' : World I) : list event :=
  skipn (List.length (events w)) (events w').

Arguments new_events : simpl never.

(** The receive calls and the send calls among the events. *)
Definition is_recv (e : event) : bool :=
  match e with EvSockRecv _ _ | EvSockRecvFrom _ _ => true | _ => false end.

Definition is_send (e : event) : bool :=
  match e with EvSockSend _ _ | EvSockSendTo _ _ _ => true | _ => false end.

(** The step an event records failed, by the test [test_send_recv]
    makes of its result: open and resolve fail when the code is not
    [NSAPI_ERROR_OK], connect and send when it is negative. *)
Definition step_failed (e : event) : bool :=
  match e with
  | EvSockOpen _ r | EvGetHostByName _ r => negb (r =? NSAPI_ERROR_OK)
  | EvSockConnect _ r | EvSockSend _ r | EvSockSendTo _ _ r => r <? 0
  | _ => false
  end.

(** Open or resolve failed. *)
Definition setup_failed (e : event) : bool :=
  match e with
  | EvSockOpen _ r | EvGetHostByName _ r => negb (r =? NSAPI_ERROR_OK)
  | _ => false
  end.

(** Whether the socket is open after the events: a successful open
    opens it; close closes it, and so does the destructor of the socket
    object (Mbed OS: it closes the socket if it is still open). *)
Fixpoint socket_open_after (opened : bool) (evs : list event) : bool :=
  match evs with
  | [] => opened
  | EvSockOpen _ r :: rest =>
      socket_open_after (if r =? NSAPI_ERROR_OK then true else opened) rest
  | EvSockClose :: rest | EvSockDestroy :: rest => socket_open_after false rest
  | _ :: rest => socket_open_after opened rest
  end.

(** What an event of the echo transaction must carry on the wire:
    the fixed host name, the endpoint, the marker, a 4-byte buffer. *)
Definition wire_ok (endpoint : SocketAddress) (e : event) : Prop :=
  match e with
  | EvGetHostByName h _ => h = host_name
  | EvSockConnect a _ => a = endpoint
  | EvSockSend d _ => d = "TEST"
  | EvSockSendTo a d _ => a = endpoint /\ d = "TEST"
  | EvSockRecv size _ | EvSockRecvFrom size _ => size = 4
  | _ => True
  end.

(** The address [gethostbyname] gives for [host_name] once the socket
    is open, with the port set to 7. *)
Definition resolved_endpoint {I} `{CellularInterface I} (cfg : config) (i : I)
  : SocketAddress :=
  let i1 := snd (socket_open (MBED_CONF_APP_SOCK_TYPE cfg) i) in
  let resolved :=
    snd (fst (gethostbyname host_name SocketAddress_default i1)) in
  mkSocketAddress (sa_addr resolved) 7.


(** What the console shows after a failed attempt. *)
Definition text_auth_failure : string :=
  LF ++ LF ++ "Authentication Failure. Exiting application" ++ LF.
Definition text_fatal (retcode : nsapi_error_t) : string :=
  substring 0 (PRINT_TEXT_LENGTH - 1)%nat
    (LF ++ LF ++ "Fatal connection failure: " ++ fmt_d retcode ++ LF).
Definition text_retry (retcode : nsapi_error_t) : string :=
  substring 0 (PRINT_TEXT_LENGTH - 1)%nat
    (LF ++ LF ++ "Couldn't connect: " ++ fmt_d retcode ++ ", will retry" ++ LF).
Definition text_established : string :=
  LF ++ LF ++ "Connection Established." ++ LF.

(** The five ways one turn of the loop of [do_connect] can go, with the
    state each leaves. *)
Inductive turn {I} `{CellularInterface I} (retry_counter : Z) (w : World I)
  : loop_exit * World I -> Prop :=
| turn_connected :
    is_connected (iface w) = true ->
    turn retry_counter w (Break, w)
| turn_auth_failure i' :
    is_connected (iface w) = false ->
    connect (iface w) = (NSAPI_ERROR_AUTH_FAILURE, i') ->
    turn retry_counter w
      (Return NSAPI_ERROR_AUTH_FAILURE,
       mkWorld i' (print_text w)
         (events w ++ [EvConnect NSAPI_ERROR_AUTH_FAILURE;
                       EvPrint text_auth_failure]))
| turn_fatal retcode i' :
    is_connected (iface w) = false ->
    connect (iface w) = (retcode, i') ->
    retcode <> NSAPI_ERROR_AUTH_FAILURE ->
    retcode <> NSAPI_ERROR_OK ->
    retry_counter > RETRY_COUNT ->
    turn retry_counter w
      (Return retcode,
       mkWorld i' (text_fatal retcode)
         (events w ++ [EvConnect retcode; EvPrint (text_fatal retcode)]))
| turn_retry retcode i' :
    is_connected (iface w) = false ->
    connect (iface w) = (retcode, i') ->
    retcode <> NSAPI_ERROR_AUTH_FAILURE ->
    retcode <> NSAPI_ERROR_OK ->
    retry_counter <= RETRY_COUNT ->
    turn retry_counter w
      (Continue (uint8 (retry_counter + 1)),
       mkWorld i' (text_retry retcode)
         (events w ++ [EvConnect retcode; EvPrint (text_retry retcode)]))
| turn_success i' :
    is_connected (iface w) = false ->
    connect (iface w) = (NSAPI_ERROR_OK, i') ->
    turn retry_counter w
      (Break,
       mkWorld i' (print_text w) (events w ++ [EvConnect NSAPI_ERROR_OK])).

(** How many of the events satisfy [p]. *)
Definition count_events (p : event -> bool) (evs : list event) : nat :=
  List.length (filter p evs).

(** A call of connect that did not return [NSAPI_ERROR_OK]. *)
Definition is_failed_connect (e : event) : bool :=
  match e with EvConnect r => negb (r =? NSAPI_ERROR_OK) | _ => false end.

Definition is_print (e : event) : bool :=
  match e with EvPrint _ => true | _ => false end.

(** An interface that only connects: [up] and [dial] give
    [is_connected] and [connect]; names do not resolve and the socket
    calls fail. *)
Definition dial_only {I : Type} (up : I -> bool)
  (dial : I -> nsapi_error_t * I) : CellularInterface I := {|
  is_connected := up;
  connect := dial;
  get_ip_address := fun i => if up i then Some "10.64.0.3" else None;
  gethostbyname := fun _ a i => (NSAPI_ERROR_DNS_FAILURE, a, i);
  modem_debug_on := fun _ i => i;
  set_sim_pin := fun _ i => i;
  set_credentials := fun _ _ _ i => i;
  socket_open := fun _ i => (NSAPI_ERROR_NO_CONNECTION, i);
  socket_set_timeout := fun _ i => i;
  socket_connect := fun _ i => (NSAPI_ERROR_NO_CONNECTION, i);
  socket_send := fun _ i => (NSAPI_ERROR_NO_CONNECTION, i);
  socket_sendto := fun _ _ i => (NSAPI_ERROR_NO_CONNECTION, i);
  socket_recv := fun _ i => (NSAPI_ERROR_NO_CONNECTION, i);
  socket_recvfrom := fun a _ i => (NSAPI_ERROR_NO_CONNECTION, a, i);
  socket_close := fun i => i;
  socket_destroy := fun i => i;
  elapse := fun _ i => i
|}.

(** A modem out of coverage: never connected, every connect fails; it
    counts the calls. *)
Module Dead.

Record modem := mkModem { dialled : nat }.

#[global] Instance modem_interface : CellularInterface modem :=
  dial_only (fun _ => false)
            (fun m => (NSAPI_ERROR_NO_CONNECTION, mkModem (S (dialled m)))).

Definition boot : World modem := mkWorld (mkModem 0) "" [].

End Dead.

(** A modem whose connect gives up too early: it reports
    [NSAPI_ERROR_NO_CONNECTION] although the link has come up. *)
Module Late.

Record modem := mkModem { up : bool }.

#[global] Instance modem_interface : CellularInterface modem :=
  dial_only up (fun _ => (NSAPI_ERROR_NO_CONNECTION, mkModem true)).

Definition boot : World modem := mkWorld (mkModem false) "" [].

End Late.

(** A modem whose connect reports success although no link has come up:
    it never reports itself connected and has no address; it counts the
    calls. *)
Module Liar.

Record modem := mkModem { dialled : nat }.

#[global] Instance modem_interface : CellularInterface modem :=
  dial_only (fun _ => false)
            (fun m => (NSAPI_ERROR_OK, mkModem (S (dialled m)))).

Definition boot : World modem := mkWorld (mkModem 0) "" [].

End Liar.

(** The kinds of call the echo transaction makes. *)
Definition is_sock_open (e : event) : bool :=
  match e with EvSockOpen _ _ => true | _ => false end.
Definition is_resolve (e : event) : bool :=
  match e with EvGetHostByName _ _ => true | _ => false end.
Definition is_sock_connect (e : event) : bool :=
  match e with EvSockConnect _ _ => true | _ => false end.
Definition is_sock_close (e : event) : bool :=
  match e with EvSockClose => true | _ => false end.
Definition is_sock_destroy (e : event) : bool :=
  match e with EvSockDestroy => true | _ => false end.

(** A receive call that returned a positive byte count. *)
Definition received_some (e : event) : bool :=
  match e with
  | EvSockRecv _ n | EvSockRecvFrom _ n => n >? 0
  | _ => false
  end.

(** What [main] prints first and last. *)
Definition text_banner : string :=
  LF ++ LF ++ "mbed-os-example-cellular" ++ LF.
Definition text_success : string :=
  LF ++ LF ++ "Success. Exiting " ++ LF ++ LF.
Definition text_failure : string :=
  LF ++ LF ++ "Failure. Exiting " ++ LF ++ LF.

(** The events of [main] before it calls [do_connect]. *)
Definition setup_events (cfg : config) : list event :=
  [EvTraceOpen;
   EvPrint text_banner;
   EvModemDebugOn (MBED_CONF_APP_MODEM_TRACE cfg);
   EvSetSimPin (MBED_CONF_APP_CELLULAR_SIM_PIN cfg);
   EvPrint ("PIN code set" ++ LF);
   EvSetCredentials (MBED_CONF_APP_APN cfg) (MBED_CONF_APP_USERNAME cfg)
                    (MBED_CONF_APP_PASSWORD cfg);
   EvPrint ("Establishing connection" ++ LF)]
  ++ (if MBED_CONF_MBED_TRACE_ENABLE cfg then [] else [EvThreadStart]).

(** The state with more events. *)
Definition add_events {I} (w : World I) (evs : list event) : World I :=
  mkWorld (iface w) (print_text w) (events w ++ evs).

Definition is_trace_open (e : event) : bool :=
  match e with EvTraceOpen => true | _ => false end.
Definition is_trace_close (e : event) : bool :=
  match e with EvTraceClose => true | _ => false end.
Definition is_thread_start (e : event) : bool :=
  match e with EvThreadStart => true | _ => false end.

(** The events [do_connect] can add. *)
Definition connect_phase (e : event) : bool :=
  match e with
  | EvConnect _ | EvPrint _ | EvTrInfo _ => true
  | _ => false
  end.

(** The events [test_send_recv] can add. *)
Definition echo_phase (e : event) : bool :=
  match e with
  | EvSockOpen _ _ | EvGetHostByName _ _ | EvSockSetTimeout _
  | EvSockConnect _ _ | EvSockSend _ _ | EvSockSendTo _ _ _
  | EvSockRecv _ _ | EvSockRecvFrom _ _ | EvSockClose | EvSockDestroy
  | EvPrint _ => true
  | _ => false
  end.

(** A call on the socket or the resolver. *)
Definition is_network_call (e : event) : bool :=
  match e with
  | EvPrint _ => false
  | _ => echo_phase e
  end.

(** A code that fits a 32-bit C [int]. *)
Definition in_int (z : Z) : bool := (- 2 ^ 31 <=? z) && (z <? 2 ^ 31).

(** Every code an event carries fits an [int]. *)
Definition int_codes (e : event) : bool :=
  match e with
  | EvConnect r | EvSockOpen _ r | EvGetHostByName _ r | EvSockConnect _ r
  | EvSockSend _ r | EvSockSendTo _ _ r | EvSockRecv _ r
  | EvSockRecvFrom _ r => in_int r
  | _ => true
  end.

(** A print of fewer characters than [print_text] can hold: had
    [snprintf] cut the text, it would have exactly
    [PRINT_TEXT_LENGTH - 1]. *)
Definition printed_whole (e : event) : bool :=
  match e with
  | EvPrint s => (String.length s <? PRINT_TEXT_LENGTH - 1)%nat
  | _ => true
  end.

(** The events of the progress indicator: sleeps of 4 seconds and
    markers. *)
Definition is_wait (e : event) : bool :=
  match e with EvWait _ => true | _ => false end.

Definition is_dot (e : event) : bool :=
  match e with
  | EvWait seconds => seconds =? 4
  | EvPrint s => String.eqb s "."
  | _ => false
  end.

(** The socket calls of the stream transport and of the datagram
    transport. *)
Definition is_stream_call (e : event) : bool :=
  match e with
  | EvSockConnect _ _ | EvSockSend _ _ | EvSockRecv _ _ => true
  | _ => false
  end.

Definition is_datagram_call (e : event) : bool :=
  match e with
  | EvSockSendTo _ _ _ | EvSockRecvFrom _ _ => true
  | _ => false
  end.

(** The loop of [do_connect], entered with counter [rc0] in state [w0],
    comes to the head of a turn with counter [rc] in state [w]. *)
Inductive loop_reaches {I} `{CellularInterface I}
  : Z -> World I -> Z -> World I -> Prop :=
| reaches_start rc w : loop_reaches rc w rc w
| reaches_turn rc0 w0 rc1 w1 rc w :
    do_connect_iteration rc0 w0 = (Continue rc1, w1) ->
    loop_reaches rc1 w1 rc w ->
    loop_reaches rc0 w0 rc w.

Section Facts.

Context {I : Type} {CI : CellularInterface I}.

Lemma app_assoc_cons {A} (l : list A) (a : A) (m : list A) :
  (l ++ [a]) ++ m = l ++ a :: m.
Proof. rewrite <- app_assoc. reflexivity. Qed.

(** Every turn of the loop is one of the five of [turn]. *)
Lemma do_connect_iteration_turn retry_counter (w : World I) :
  turn retry_counter w (do_connect_iteration retry_counter w).
Proof.
  unfold do_connect_iteration, bind, query, call, ret, print_function,
    snprintf_print_text, print_print_text, emit.
  destruct (is_connected (iface w)) eqn:Hc; simpl.
  { destruct w; apply turn_connected; exact Hc. }
  destruct (connect (iface w)) as [retcode i'] eqn:Hconn.
  destruct (Z.eqb_spec retcode NSAPI_ERROR_AUTH_FAILURE) as [->|Hauth]; simpl.
  { rewrite app_assoc_cons. apply turn_auth_failure; assumption. }
  destruct (Z.eqb_spec retcode NSAPI_ERROR_OK) as [->|Hok]; simpl.
  { apply turn_success; assumption. }
  destruct (retry_counter >? RETRY_COUNT) eqn:Hgt; simpl;
    rewrite app_assoc_cons.
  - apply turn_fatal; try assumption.
    rewrite Z.gtb_ltb, Z.ltb_lt in Hgt. lia.
  - apply turn_retry; try assumption.
    rewrite Z.gtb_ltb, Z.ltb_ge in Hgt. exact Hgt.
Qed.


Lemma do_connect_loop_step retry_counter (w : World I) :
  do_connect_loop retry_counter w =
  match do_connect_iteration retry_counter w with
  | (Continue rc', w') => do_connect_loop rc' w'
  | (r, w') => (r, w')
  end.
Proof.
  simp do_connect_loop.
  destruct (inspect (do_connect_iteration retry_counter w)) as [[r w'] H].
  transitivity (let (r0, w0) := (r, w') in
                match r0 with
                | Continue rc' => do_connect_loop rc' w0
                | _ => (r0, w0)
                end).
  - destruct r; simp do_connect_loop; reflexivity.
  - rewrite H. reflexivity.
Qed.

(** A turn that ends in [continue] only happens up to the threshold,
    and then fewer turns are left. *)
Lemma turns_left_decreases retry_counter :
  retry_counter <= RETRY_COUNT ->
  (turns_left (uint8 (retry_counter + 1)) < turns_left retry_counter)%nat.
Proof.
  unfold turns_left, uint8, RETRY_COUNT. intros Hle.
  pose proof (Z.mod_pos_bound (retry_counter + 1) 256 eq_refl) as Hb.
  destruct (Z_lt_ge_dec retry_counter (-1)) as [Hneg|Hpos].
  - lia.
  - rewrite Z.mod_small by lia. lia.
Qed.

Lemma turn_continue retry_counter (w : World I) rc' w' :
  turn retry_counter w (Continue rc', w') ->
  retry_counter <= RETRY_COUNT /\ rc' = uint8 (retry_counter + 1).
Proof. intros Ht. inversion Ht; subst. split; [assumption|reflexivity]. Qed.

(** Induction over the turns of the loop: a property of the loop's
    outcome holds when it holds for a last turn, and is carried from the
    rest of the loop over a turn that continues. *)
Lemma do_connect_loop_turns
  (P : Z -> World I -> loop_exit * World I -> Prop) :
  (forall rc w out, turn rc w out ->
     (forall rc', fst out <> Continue rc') -> P rc w out) ->
  (forall rc w rc' w', turn rc w (Continue rc', w') ->
     P rc' w' (do_connect_loop rc' w') -> P rc w (do_connect_loop rc' w')) ->
  forall rc w, P rc w (do_connect_loop rc w).
Proof.
  intros Hlast Hmore rc.
  remember (turns_left rc) as n eqn:Hn. revert rc Hn.
  induction n as [n IH] using lt_wf_ind. intros rc -> w.
  rewrite do_connect_loop_step.
  pose proof (do_connect_iteration_turn rc w) as Ht.
  destruct (do_connect_iteration rc w) as [[retcode| |rc'] w'].
  - apply Hlast; [exact Ht|discriminate].
  - apply Hlast; [exact Ht|discriminate].
  - apply Hmore; [exact Ht|].
    destruct (turn_continue _ _ _ _ Ht) as [Hle ->].
    apply (IH (turns_left (uint8 (rc + 1)))); [|reflexivity].
    apply turns_left_decreases. exact Hle.
Qed.

(** The loop ends in [return] or leaves the loop: its outcome is never
    a pending [continue]. *)
Lemma do_connect_loop_final retry_counter (w : World I) rc' :
  fst (do_connect_loop retry_counter w) <> Continue rc'.
Proof.
  revert rc'.
  apply (do_connect_loop_turns
           (fun _ _ out => forall rc', fst out <> Continue rc')).
  - intros rc w0 out _ H. exact H.
  - intros rc w0 rc1 w1 _ IH. exact IH.
Qed.

Lemma connect_attempts_app (l m : list event) :
  connect_attempts (l ++ m) = (connect_attempts l + connect_attempts m)%nat.
Proof.
  unfold connect_attempts. rewrite filter_app, length_app. reflexivity.
Qed.

(** The loop only adds events, and among them at most one call of
    connect per turn the counter allows. *)
Lemma do_connect_loop_events retry_counter (w : World I) :
  exists delta,
    events (snd (do_connect_loop retry_counter w)) = events w ++ delta /\
    (connect_attempts delta <= turns_left retry_counter + 1)%nat.
Proof.
  apply (do_connect_loop_turns
           (fun rc w out => exists delta,
              events (snd out) = events w ++ delta /\
              (connect_attempts delta <= turns_left rc + 1)%nat)).
  - intros rc w0 out Ht Hstop. inversion Ht; subst; simpl.
    + exists []. rewrite app_nil_r. split; [reflexivity|].
      unfold connect_attempts. simpl. lia.
    + eexists. split; [reflexivity|]. unfold connect_attempts. simpl. lia.
    + eexists. split; [reflexivity|]. unfold connect_attempts. simpl. lia.
    + exfalso. eapply Hstop; reflexivity.
    + eexists. split; [reflexivity|]. unfold connect_attempts. simpl. lia.
  - intros rc w0 rc1 w1 Ht [delta [Hev Hn]].
    destruct (turn_continue _ _ _ _ Ht) as [Hle ->].
    pose proof (turns_left_decreases rc Hle) as Hdec.
    inversion Ht; subst.
    rewrite Hev. simpl. rewrite <- app_assoc.
    eexists. split; [reflexivity|].
    rewrite connect_attempts_app. unfold connect_attempts at 1. simpl. lia.
Qed.

(** A [return] inside the loop carries a failure code. *)
Lemma do_connect_loop_return retry_counter (w : World I) retcode :
  fst (do_connect_loop retry_counter w) = Return retcode ->
  retcode <> NSAPI_ERROR_OK.
Proof.
  revert retcode.
  apply (do_connect_loop_turns
           (fun _ _ out => forall retcode,
              fst out = Return retcode -> retcode <> NSAPI_ERROR_OK)).
  - intros rc w0 out Ht _ retcode Hout.
    inversion Ht; subst; simpl in Hout; inversion Hout; subst;
      [discriminate|assumption].
  - intros rc w0 rc1 w1 _ IH. exact IH.
Qed.

(** The loop is left either because the interface reported itself
    connected, or right after a call of connect that returned success and
    left the interface as it is now. *)
Lemma do_connect_loop_break retry_counter (w : World I) :
  fst (do_connect_loop retry_counter w) = Break ->
  is_connected (iface (snd (do_connect_loop retry_counter w))) = true \/
  exists i, is_connected i = false /\
            connect i =
            (NSAPI_ERROR_OK, iface (snd (do_connect_loop retry_counter w))).
Proof.
  apply (do_connect_loop_turns
           (fun _ _ out =>
              fst out = Break ->
              is_connected (iface (snd out)) = true \/
              exists i, is_connected i = false /\
                        connect i = (NSAPI_ERROR_OK, iface (snd out)))).
  - intros rc w0 out Ht _ Hout.
    inversion Ht; subst; simpl in Hout; try discriminate; simpl.
    + left. assumption.
    + right. exists (iface w0). split; assumption.
  - intros rc w0 rc1 w1 _ IH. exact IH.
Qed.

(** [do_connect] in terms of the outcome of its loop. *)
Lemma do_connect_of_loop (w : World I) :
  (exists retcode, do_connect_loop 0 w = (Return retcode, snd (do_connect w)) /\
                   fst (do_connect w) = retcode /\
                   retcode <> NSAPI_ERROR_OK) \/
  (exists w', do_connect_loop 0 w = (Break, w') /\
              do_connect w =
              (NSAPI_ERROR_OK,
               mkWorld (iface w') (print_text w')
                 (events w' ++ [EvPrint text_established;
                                EvTrInfo (get_ip_address (iface w'))]))).
Proof.
  unfold do_connect.
  pose proof (do_connect_loop_final 0 w) as Hfin.
  pose proof (do_connect_loop_return 0 w) as Hret.
  destruct (do_connect_loop 0 w) as [[retcode| |rc'] w'].
  - left. exists retcode. simpl. repeat split. apply Hret. reflexivity.
  - right. exists w'. split; [reflexivity|].
    unfold bind, print_function, emit, query, ret. simpl.
    rewrite app_assoc_cons. reflexivity.
  - exfalso. apply (Hfin rc'). reflexivity.
Qed.

Lemma new_events_app (w : World I) i text delta :
  new_events w (mkWorld i text (events w ++ delta)) = delta.
Proof.
  unfold new_events. simpl.
  rewrite skipn_app, skipn_all, Nat.sub_diag. reflexivity.
Qed.

Lemma new_events_eq (w w' : World I) delta :
  events w' = events w ++ delta -> new_events w w' = delta.
Proof.
  intros H. unfold new_events. rewrite H.
  rewrite skipn_app, skipn_all, Nat.sub_diag. reflexivity.
Qed.

(** [do_connect] only adds events, at most five calls of connect among
    them. *)
Lemma do_connect_events (w : World I) :
  exists delta,
    events (snd (do_connect w)) = events w ++ delta /\
    (connect_attempts delta <= 5)%nat.
Proof.
  destruct (do_connect_loop_events 0 w) as [delta [Hev Hn]].
  change (turns_left 0) with 4%nat in Hn.
  destruct (do_connect_of_loop w) as [[retcode [Hloop _]]|[w' [Hloop Hdo]]].
  - rewrite Hloop in Hev. exists delta. split; [exact Hev|lia].
  - rewrite Hloop in Hev. simpl in Hev. rewrite Hdo. simpl.
    rewrite Hev, <- app_assoc. eexists. split; [reflexivity|].
    rewrite connect_attempts_app. unfold connect_attempts at 2. simpl. lia.
Qed.

(** C9: [do_connect] terminates whatever the interface does. Every turn
    of its loop either returns a failure code, leaves the loop (the
    interface reported itself connected, or connect returned success), or
    raises the retry counter by one, which it only does while the counter
    is at most [RETRY_COUNT]; so fewer turns are left after it. The whole
    call returns, having made at most five calls of connect. *)
Theorem do_connect_terminates (w : World I) :
  (forall retry_counter (v : World I),
     match fst (do_connect_iteration retry_counter v) with
     | Return retcode => retcode <> NSAPI_ERROR_OK
     | Break =>
         is_connected (iface v) = true \/
         fst (connect (iface v)) = NSAPI_ERROR_OK
     | Continue rc' =>
         retry_counter <= RETRY_COUNT /\
         rc' = uint8 (retry_counter + 1) /\
         (0 <= retry_counter -> rc' = retry_counter + 1) /\
         (turns_left rc' < turns_left retry_counter)%nat
     end) /\
  exists retcode w' delta,
    do_connect w = (retcode, w') /\
    events w' = events w ++ delta /\
    (connect_attempts delta <= 5)%nat.
Proof.
  split.
  - intros rc v. pose proof (do_connect_iteration_turn rc v) as Ht.
    inversion Ht; subst; simpl.
    + left. assumption.
    + discriminate.
    + assumption.
    + split; [assumption|]. split; [reflexivity|]. split.
      * intros Hpos. unfold uint8, RETRY_COUNT in *.
        apply Z.mod_small. lia.
      * apply turns_left_decreases. assumption.
    + right. match goal with H : connect _ = _ |- _ => rewrite H end.
      reflexivity.
  - destruct (do_connect_events w) as [delta [Hev Hn]].
    exists (fst (do_connect w)), (snd (do_connect w)), delta.
    split; [apply surjective_pairing|]. split; assumption.
Qed.

(** C10: entered with the interface already connected, [do_connect]
    calls connect not once: the interface is as it was, the only new
    events are the message that the connection is established and the
    trace of the address, and the result is [NSAPI_ERROR_OK]. *)
Theorem do_connect_already_connected (w : World I) :
  is_connected (iface w) = true ->
  do_connect w =
    (NSAPI_ERROR_OK,
     mkWorld (iface w) (print_text w)
       (events w ++ [EvPrint text_established;
                     EvTrInfo (get_ip_address (iface w))])) /\
  iface (snd (do_connect w)) = iface w /\
  connect_attempts (new_events w (snd (do_connect w))) = 0%nat.
Proof.
  intros Hc.
  assert (Hdo : do_connect w =
    (NSAPI_ERROR_OK,
     mkWorld (iface w) (print_text w)
       (events w ++ [EvPrint text_established;
                     EvTrInfo (get_ip_address (iface w))]))).
  { unfold do_connect. rewrite do_connect_loop_step.
    unfold do_connect_iteration, bind, query, ret, print_function, emit.
    rewrite Hc. simpl. rewrite app_assoc_cons. reflexivity. }
  rewrite Hdo. simpl. split; [reflexivity|]. split; [reflexivity|].
  rewrite new_events_app. reflexivity.
Qed.

(** From a turn the loop comes to, the loop ends as the whole loop
    does. *)
Lemma loop_reaches_outcome rc0 (w0 : World I) rc w :
  loop_reaches rc0 w0 rc w ->
  do_connect_loop rc0 w0 = do_connect_loop rc w.
Proof.
  induction 1 as [|rc0 w0 rc1 w1 rc w Hit _ IH]; [reflexivity|].
  rewrite do_connect_loop_step, Hit. exact IH.
Qed.

(** The counter only goes up, one by one, and a turn is entered with at
    most [RETRY_COUNT + 1]: the [uint8_t] never wraps. *)
Lemma loop_reaches_counter rc0 (w0 : World I) rc w :
  loop_reaches rc0 w0 rc w ->
  0 <= rc0 <= RETRY_COUNT + 1 -> rc0 <= rc <= RETRY_COUNT + 1.
Proof.
  induction 1 as [|rc0 w0 rc1 w1 rc w Hit _ IH]; intros Hrange; [lia|].
  pose proof (do_connect_iteration_turn rc0 w0) as Ht. rewrite Hit in Ht.
  destruct (turn_continue _ _ _ _ Ht) as [Hle ->].
  unfold uint8, RETRY_COUNT in *.
  rewrite Z.mod_small in IH by lia. lia.
Qed.

(** C6: whatever the retry counter is, a turn of the loop in which
    connect returns [NSAPI_ERROR_AUTH_FAILURE] ends the loop at once: the
    failure is printed and returned, by the loop and so by [do_connect],
    and that call of connect is the last one. *)
Theorem do_connect_auth_failure_exits
  rc0 (w0 : World I) retry_counter (w : World I) i' :
  let w' := mkWorld i' (print_text w)
              (events w ++ [EvConnect NSAPI_ERROR_AUTH_FAILURE;
                            EvPrint text_auth_failure]) in
  loop_reaches rc0 w0 retry_counter w ->
  is_connected (iface w) = false ->
  connect (iface w) = (NSAPI_ERROR_AUTH_FAILURE, i') ->
  do_connect_loop rc0 w0 = (Return NSAPI_ERROR_AUTH_FAILURE, w') /\
  (rc0 = 0 -> do_connect w0 = (NSAPI_ERROR_AUTH_FAILURE, w')) /\
  connect_attempts (new_events w w') = 1%nat.
Proof.
  intros w' Hreach Hc Hconn.
  assert (Hloop : do_connect_loop rc0 w0 =
                  (Return NSAPI_ERROR_AUTH_FAILURE, w')).
  { rewrite (loop_reaches_outcome _ _ _ _ Hreach), do_connect_loop_step.
    unfold do_connect_iteration, bind, query, call, ret, print_function, emit.
    rewrite Hc. simpl. rewrite Hconn. simpl.
    rewrite app_assoc_cons. reflexivity. }
  split; [exact Hloop|]. split.
  - intros ->. unfold do_connect. rewrite Hloop. reflexivity.
  - unfold w'. rewrite new_events_app. reflexivity.
Qed.

(** The loop is left with [break] either at a loop test that found the
    interface connected, or right after a call of connect that returned
    success: that call is the last event, and the interface is as the call
    left it. *)
Lemma do_connect_loop_break_events retry_counter (w : World I) :
  fst (do_connect_loop retry_counter w) = Break ->
  is_connected (iface (snd (do_connect_loop retry_counter w))) = true \/
  exists i before,
    is_connected i = false /\
    connect i =
      (NSAPI_ERROR_OK, iface (snd (do_connect_loop retry_counter w))) /\
    events (snd (do_connect_loop retry_counter w)) =
      events w ++ before ++ [EvConnect NSAPI_ERROR_OK].
Proof.
  apply (do_connect_loop_turns
           (fun _ w out =>
              fst out = Break ->
              is_connected (iface (snd out)) = true \/
              exists i before,
                is_connected i = false /\
                connect i = (NSAPI_ERROR_OK, iface (snd out)) /\
                events (snd out) =
                  events w ++ before ++ [EvConnect NSAPI_ERROR_OK])).
  - intros rc w0 out Ht _ Hout.
    inversion Ht; subst; simpl in Hout; try discriminate; simpl.
    + left. assumption.
    + right. exists (iface w0), []. repeat split; assumption.
  - intros rc w0 rc1 w1 Ht IH Hout.
    destruct (IH Hout) as [Hc|[i [before [Hi [Hconn Hev]]]]].
    + left. exact Hc.
    + right. inversion Ht; subst. simpl in Hev.
      exists i, ([EvConnect retcode; EvPrint (text_retry retcode)] ++ before).
      repeat split; [exact Hi|exact Hconn|].
      rewrite Hev, <- !app_assoc. reflexivity.
Qed.

(** C3: when [do_connect] returns [NSAPI_ERROR_OK] it has left its loop
    in one of two ways: either the loop test found the interface
    connected, or the last call of connect returned [NSAPI_ERROR_OK] and
    [do_connect] went on from the state that call left, without asking
    [is_connected] again. Either way it then prints that the connection
    is established and traces whatever [get_ip_address] gives, an address
    or none, and these are its last two events. Hence the interface
    reports itself connected on return if its connect returns
    [NSAPI_ERROR_OK] only when it leaves the interface connected; the
    program itself does not check it. *)
Theorem do_connect_ok_cause (w w' : World I) :
  do_connect w = (NSAPI_ERROR_OK, w') ->
  (exists before,
     new_events w w' =
       before ++ [EvPrint text_established;
                  EvTrInfo (get_ip_address (iface w'))]) /\
  (is_connected (iface w') = true \/
   exists i before,
     is_connected i = false /\
     connect i = (NSAPI_ERROR_OK, iface w') /\
     new_events w w' =
       before ++ [EvConnect NSAPI_ERROR_OK;
                  EvPrint text_established;
                  EvTrInfo (get_ip_address (iface w'))]) /\
  ((forall i i', is_connected i = false ->
                 connect i = (NSAPI_ERROR_OK, i') ->
                 is_connected i' = true) ->
   is_connected (iface w') = true).
Proof.
  intros Hdo.
  destruct (do_connect_of_loop w)
    as [[retcode [_ [Hfst Hne]]]|[w1 [Hloop Hdo1]]].
  { rewrite Hdo in Hfst. simpl in Hfst. congruence. }
  rewrite Hdo in Hdo1. inversion Hdo1; subst; simpl. clear Hdo1.
  pose proof (do_connect_loop_break_events 0 w) as Hbreak.
  destruct (do_connect_loop_events 0 w) as [delta [Hev _]].
  rewrite Hloop in Hbreak, Hev. simpl in Hbreak, Hev.
  specialize (Hbreak eq_refl).
  split; [|split].
  - exists delta. rewrite Hev, <- app_assoc. apply new_events_app.
  - destruct Hbreak as [Hc|[i [before [Hi [Hconn Hlast]]]]].
    + left. exact Hc.
    + right. exists i, before. repeat split; [exact Hi|exact Hconn|].
      rewrite Hlast, <- !app_assoc. apply new_events_app.
  - intros Hcontract.
    destruct Hbreak as [Hc|[i [_ [Hi [Hconn _]]]]].
    + exact Hc.
    + exact (Hcontract _ _ Hi Hconn).
Qed.

(** *** The echo transaction *)

Local Arguments String.append : simpl never.
Local Arguments substring : simpl never.
Local Arguments fmt_d : simpl never.

(** Name the outcome of the next call into the interface. *)
Ltac next_call :=
  match goal with
  | |- context [let (_, _) := ?x in _] =>
      lazymatch x with
      | context [let (_, _) := _ in _] => fail
      | _ => destruct x as [? ?] eqn:?
      end
  end.

(** Run [test_send_recv] symbolically: one goal per path. *)
Ltac echo_paths :=
  unfold test_send_recv, exchange_tcp, exchange_udp, test_send_recv_tail,
    return_, bind, call, call_, ret, snprintf_print_text, print_print_text,
    print_function, emit;
  repeat (simpl;
    first
      [ next_call
      | match goal with
        | |- context [match MBED_CONF_APP_SOCK_TYPE ?c with _ => _ end] =>
            destruct (MBED_CONF_APP_SOCK_TYPE c) eqn:?
        | |- context [if ?b then _ else _] => destruct b eqn:?
        end ]);
  simpl; repeat rewrite app_assoc_cons; repeat rewrite new_events_app.

(** Close a path's goal by the tests made along it. *)
Ltac by_tests :=
  simpl;
  repeat match goal with
         | E : ?c = _ |- context [?c] => rewrite E
         end;
  simpl.

(** C2: when open, resolve, connect or send fails, [test_send_recv]
    returns -1 and no receive was attempted; the socket is not left
    open, since the destructor of the socket object runs at the return
    and is the last event. When open or resolve fails, nothing was sent
    either. *)
Theorem test_send_recv_abort cfg (w : World I) :
  existsb step_failed (new_events w (snd (test_send_recv cfg w))) = true ->
  fst (test_send_recv cfg w) = -1 /\
  existsb is_recv (new_events w (snd (test_send_recv cfg w))) = false /\
  socket_open_after false (new_events w (snd (test_send_recv cfg w))) = false /\
  (exists before,
     new_events w (snd (test_send_recv cfg w)) = before ++ [EvSockDestroy]) /\
  (existsb setup_failed (new_events w (snd (test_send_recv cfg w))) = true ->
   existsb is_send (new_events w (snd (test_send_recv cfg w))) = false).
Proof.
  echo_paths.
  all: by_tests; intros Hfailed; try discriminate Hfailed.
  all: repeat split; try reflexivity.
  all: try (intros Hsetup; try discriminate Hsetup; reflexivity).
  all: match goal with
       | |- exists before, ?l = _ => exists (removelast l); reflexivity
       end.
Qed.

(** X7: on every path, failed or not, the socket is not left open when
    [test_send_recv] returns, and the destructor of the socket object is
    the last event. *)
Lemma test_send_recv_closes cfg (w : World I) :
  socket_open_after false (new_events w (snd (test_send_recv cfg w))) = false /\
  exists before,
    new_events w (snd (test_send_recv cfg w)) = before ++ [EvSockDestroy].
Proof.
  echo_paths.
  all: split; [simpl; by_tests; reflexivity|].
  all: match goal with
       | |- exists before, ?l = _ => exists (removelast l); reflexivity
       end.
Qed.

(** C4: in a run of [test_send_recv] that reached the receive call, the
    result is 0 exactly when the byte count that call returned is
    positive, and -1 otherwise; nothing else is looked at. *)
Theorem test_send_recv_result cfg (w : World I) size n :
  In (EvSockRecv size n) (new_events w (snd (test_send_recv cfg w))) \/
  In (EvSockRecvFrom size n) (new_events w (snd (test_send_recv cfg w))) ->
  (fst (test_send_recv cfg w) = 0 <-> n > 0) /\
  (n <= 0 -> fst (test_send_recv cfg w) = -1) /\
  (fst (test_send_recv cfg w) = 0 \/ fst (test_send_recv cfg w) = -1).
Proof.
  echo_paths.
  all: simpl; intros Hin.
  all: repeat match goal with
              | H : _ \/ _ |- _ => destruct H
              | H : False |- _ => destruct H
              | H : _ = _ :> event |- _ => inversion H; clear H
              end; subst.
  all: repeat match goal with
              | H : (_ >? _) = true |- _ =>
                  rewrite Z.gtb_ltb, Z.ltb_lt in H
              | H : (_ >? _) = false |- _ =>
                  rewrite Z.gtb_ltb, Z.ltb_ge in H
              end.
  all: repeat split; try lia; try (intros; lia); try (left; reflexivity);
    try (right; reflexivity).
Qed.

(** On a target whose pointers take 4 bytes, the payload is the
    marker. *)
Lemma echo_payload_ilp32 cfg :
  sizeof_char_ptr cfg = 4%nat -> echo_payload cfg = "TEST".
Proof.
  intros H. unfold echo_payload, echo_string_memory. rewrite H. reflexivity.
Qed.

(** With pointers of 8 bytes the payload would run past the marker: its
    terminator and three of the bytes after it would be sent too. *)
Remark echo_payload_lp64 cfg b1 b2 b3 rest :
  sizeof_char_ptr cfg = 8%nat ->
  bytes_after_echo_string cfg = String b1 (String b2 (String b3 rest)) ->
  echo_payload cfg =
  ("TEST"
   ++ String zero (String b1 (String b2 (String b3 EmptyString))))%string.
Proof.
  intros Hptr Hmem. unfold echo_payload, echo_string_memory.
  rewrite Hptr, Hmem. destruct rest; reflexivity.
Qed.

(** C7: on a target whose pointers take 4 bytes, every echo transaction
    opens the socket and, when that succeeds, resolves the fixed host
    name; when the name resolves, a UDP build sends exactly the 4 bytes
    of the marker TEST to the resolved address with port 7 and, unless
    the send fails, receives into a buffer of 4 bytes; a TCP build
    connects to that address, then, unless the step before fails, sends
    the marker and receives into a buffer of 4 bytes. No event of the
    transaction carries another host, endpoint, payload or buffer
    size. *)
Theorem test_send_recv_wire cfg (w : World I) :
  sizeof_char_ptr cfg = 4%nat ->
  let ty := MBED_CONF_APP_SOCK_TYPE cfg in
  let endpoint := resolved_endpoint cfg (iface w) in
  let opened := socket_open ty (iface w) in
  let resolved :=
    gethostbyname host_name SocketAddress_default (snd opened) in
  let i := socket_set_timeout 15000 (snd resolved) in
  let delta := new_events w (snd (test_send_recv cfg w)) in
  Forall (wire_ok endpoint) delta /\
  In (EvSockOpen ty (fst opened)) delta /\
  (fst opened = NSAPI_ERROR_OK ->
   In (EvGetHostByName host_name (fst (fst resolved))) delta) /\
  (fst opened = NSAPI_ERROR_OK ->
   fst (fst resolved) = NSAPI_ERROR_OK ->
   match ty with
   | UDP =>
       let sent := socket_sendto endpoint "TEST" i in
       In (EvSockSendTo endpoint "TEST" (fst sent)) delta /\
       (0 <= fst sent ->
        In (EvSockRecvFrom 4
              (fst (fst (socket_recvfrom endpoint 4 (snd sent))))) delta)
   | TCP =>
       let connected := socket_connect endpoint i in
       In (EvSockConnect endpoint (fst connected)) delta /\
       (0 <= fst connected ->
        let sent := socket_send "TEST" (snd connected) in
        In (EvSockSend "TEST" (fst sent)) delta /\
        (0 <= fst sent ->
         In (EvSockRecv 4 (fst (socket_recv 4 (snd sent)))) delta))
   end) /\
  (fst (test_send_recv cfg w) = 0 ->
   exists sent,
     In (EvSockSend "TEST" sent) delta \/
     In (EvSockSendTo endpoint "TEST" sent) delta).
Proof.
  intros Hptr. cbv zeta.
  change (resolved_endpoint cfg (iface w))
    with (set_port port
            (snd (fst (gethostbyname host_name SocketAddress_default
                         (snd (socket_open (MBED_CONF_APP_SOCK_TYPE cfg)
                                 (iface w))))))).
  assert (Hport : uint16 port = 7) by reflexivity.
  rewrite <- (echo_payload_ilp32 cfg Hptr).
  change 4 with sizeof_recv_buf.
  echo_paths.
  all: repeat match goal with
              | H : negb (_ =? _) = true |- _ =>
                  apply negb_true_iff in H; apply Z.eqb_neq in H
              | H : negb (_ =? _) = false |- _ =>
                  apply negb_false_iff in H; apply Z.eqb_eq in H
              | H : (_ <? _) = true |- _ => apply Z.ltb_lt in H
              | H : (_ <? _) = false |- _ => apply Z.ltb_ge in H
              end.
  all: split;
    [try rewrite (echo_payload_ilp32 cfg Hptr); unfold set_port;
     try rewrite Hport; repeat constructor|].
  all: split; [simpl; auto|].
  all: split; [intros Hopen; first [contradiction|solve [simpl; auto]]|].
  all: split; [|intros Hres; try discriminate Hres; eexists; simpl; eauto 15].
  all: intros Hopen Hres; try contradiction.
  all: repeat (split || intro);
    first [solve [simpl; auto 15]|exfalso; lia].
Qed.

(** *** The progress indicator *)


(** *** The entry point *)

Lemma bind_eq {A B} (m : M I A) (k : A -> M I B) w a w' :
  m w = (a, w') -> bind m k w = k a w'.
Proof. intros H. unfold bind. rewrite H. reflexivity. Qed.

(** The exit code of [main] from the results of the two calls it
    makes. *)
Lemma main_returns cfg (w : World I) :
  fst (main cfg w) =
  if (fst (do_connect (snd (main_setup cfg w))) =? NSAPI_ERROR_OK) &&
     (fst (test_send_recv cfg (snd (do_connect (snd (main_setup cfg w)))))
      =? NSAPI_ERROR_OK)
  then 0 else -1.
Proof.
  unfold main.
  destruct (main_setup cfg w) as [u w0] eqn:E0.
  rewrite (bind_eq _ _ _ _ _ E0). cbn [fst snd].
  destruct (do_connect w0) as [connected w1] eqn:E1.
  rewrite (bind_eq _ _ _ _ _ E1). cbn [fst snd].
  destruct (connected =? NSAPI_ERROR_OK); [|reflexivity].
  destruct (test_send_recv cfg w1) as [retcode w2] eqn:E2.
  rewrite (bind_eq _ _ _ _ _ E2). cbn [fst snd].
  destruct (retcode =? NSAPI_ERROR_OK); reflexivity.
Qed.

(** C5: [main] returns 0 exactly when [do_connect] returned
    [NSAPI_ERROR_OK] and [test_send_recv], run after it, returned 0; in
    every other case it returns -1. *)
Theorem main_exit_code cfg (w : World I) :
  let w0 := snd (main_setup cfg w) in
  let w1 := snd (do_connect w0) in
  (fst (main cfg w) = 0 <->
   fst (do_connect w0) = NSAPI_ERROR_OK /\ fst (test_send_recv cfg w1) = 0) /\
  (fst (main cfg w) = 0 \/ fst (main cfg w) = -1).
Proof.
  cbv zeta. rewrite main_returns.
  destruct (Z.eqb_spec (fst (do_connect (snd (main_setup cfg w))))
                       NSAPI_ERROR_OK) as [Hc|Hc]; simpl.
  - destruct (Z.eqb_spec
                (fst (test_send_recv cfg
                        (snd (do_connect (snd (main_setup cfg w))))))
                NSAPI_ERROR_OK) as [Ht|Ht].
    + split; [|left; reflexivity]. split; [intros _; split; assumption|].
      reflexivity.
    + split; [|right; reflexivity].
      split; [discriminate|]. intros [_ H]. exfalso. apply Ht. exact H.
  - split; [|right; reflexivity].
    split; [discriminate|]. intros [H _]. exfalso. apply Hc. exact H.
Qed.

(** *** An interface that never connects *)

(** With an interface that is never connected and whose connect always
    fails with a code other than the authentication failure, the loop
    entered with a counter of [RETRY_COUNT + 1 - n] calls connect
    [n + 1] times and returns a failure. *)
Lemma do_connect_loop_never_connects :
  (forall i, is_connected i = false) ->
  (forall i, fst (connect i) <> NSAPI_ERROR_OK /\
             fst (connect i) <> NSAPI_ERROR_AUTH_FAILURE) ->
  forall n retry_counter (w : World I),
    retry_counter + Z.of_nat n = RETRY_COUNT + 1 -> 0 <= retry_counter ->
    exists retcode delta,
      fst (do_connect_loop retry_counter w) = Return retcode /\
      events (snd (do_connect_loop retry_counter w)) = events w ++ delta /\
      connect_attempts delta = S n.
Proof.
  intros Hoff Hfail. induction n as [|n IH]; intros rc w Hrc Hpos;
    rewrite do_connect_loop_step;
    pose proof (do_connect_iteration_turn rc w) as Ht;
    destruct (do_connect_iteration rc w) as [out w'];
    inversion Ht; subst; cbn [fst snd events];
    try (rewrite Hoff in *; discriminate);
    try (match goal with
         | H : connect ?i = _ |- _ =>
             pose proof (Hfail i) as [Hne1 Hne2]; rewrite H in Hne1, Hne2;
             simpl in Hne1, Hne2; congruence
         end);
    unfold RETRY_COUNT in *; try lia.
  - eexists. eexists. repeat split.
  - match goal with
    | |- context [do_connect_loop ?c ?v] =>
        destruct (IH c v) as [last [delta [Hr [Hev Hn]]]]
    end.
    + unfold uint8. rewrite Z.mod_small by lia. lia.
    + unfold uint8. apply Z.mod_pos_bound. lia.
    + exists last. eexists. split; [exact Hr|].
      rewrite Hev. cbn [events]. rewrite <- app_assoc.
      split; [reflexivity|].
      rewrite connect_attempts_app, Hn. reflexivity.
Qed.

(** X15: with an interface that is never connected and whose connect
    always fails with a code other than the authentication failure,
    [do_connect] makes five calls of connect, one first attempt and four
    retries, before it returns the failure, and [main] returns -1. *)
Lemma do_connect_never_connects :
  (forall i, is_connected i = false) ->
  (forall i, fst (connect i) <> NSAPI_ERROR_OK /\
             fst (connect i) <> NSAPI_ERROR_AUTH_FAILURE) ->
  forall cfg (w : World I),
    fst (do_connect w) <> NSAPI_ERROR_OK /\
    connect_attempts (new_events w (snd (do_connect w))) = 5%nat /\
    fst (main cfg w) = -1.
Proof.
  intros Hoff Hfail cfg w.
  assert (Hrun : forall v : World I,
            fst (do_connect v) <> NSAPI_ERROR_OK /\
            connect_attempts (new_events v (snd (do_connect v))) = 5%nat).
  { intros v.
    destruct (do_connect_loop_never_connects Hoff Hfail 4 0 v eq_refl)
      as [retcode [delta [Hr [Hev Hn]]]]; [lia|].
    destruct (do_connect_of_loop v) as [[r [Hloop [Hfst Hne]]]|[w' [Hloop _]]].
    - split; [congruence|].
      rewrite Hloop in Hev. simpl in Hev.
      rewrite (new_events_eq _ _ _ Hev). exact Hn.
    - rewrite Hloop in Hr. discriminate. }
  destruct (Hrun w) as [Hne Hfive]. split; [exact Hne|]. split; [exact Hfive|].
  rewrite main_returns.
  destruct (Hrun (snd (main_setup cfg w))) as [Hne' _].
  destruct (Z.eqb_spec (fst (do_connect (snd (main_setup cfg w))))
                       NSAPI_ERROR_OK); [contradiction|reflexivity].
Qed.

(** *** More on the connection loop *)

Lemma count_events_app p (l m : list event) :
  count_events p (l ++ m) = (count_events p l + count_events p m)%nat.
Proof.
  unfold count_events. rewrite filter_app, length_app. reflexivity.
Qed.

(** A fatal [return] is only reached with the counter at
    [RETRY_COUNT + 1]: entered with a counter [rc] in range, a loop that
    returns a code other than the authentication failure has called
    connect [RETRY_COUNT + 2 - rc] times. *)
Lemma do_connect_loop_fatal_attempts retry_counter (w : World I) :
  0 <= retry_counter <= RETRY_COUNT + 1 ->
  forall retcode,
    fst (do_connect_loop retry_counter w) = Return retcode ->
    retcode <> NSAPI_ERROR_AUTH_FAILURE ->
    exists delta,
      events (snd (do_connect_loop retry_counter w)) = events w ++ delta /\
      Z.of_nat (connect_attempts delta) = RETRY_COUNT + 2 - retry_counter.
Proof.
  apply (do_connect_loop_turns
           (fun rc w out =>
              0 <= rc <= RETRY_COUNT + 1 ->
              forall retcode,
                fst out = Return retcode ->
                retcode <> NSAPI_ERROR_AUTH_FAILURE ->
                exists delta,
                  events (snd out) = events w ++ delta /\
                  Z.of_nat (connect_attempts delta) = RETRY_COUNT + 2 - rc)).
  - intros rc w0 out Ht _ Hrange retcode Hout Hna.
    inversion Ht; subst; cbn [fst snd events] in *; try discriminate.
    + inversion Hout; subst. contradiction.
    + eexists. split; [reflexivity|].
      unfold connect_attempts, RETRY_COUNT in *.
      cbn [filter is_connect List.length]. lia.
  - intros rc w0 rc1 w1 Ht IH Hrange retcode Hout Hna.
    destruct (turn_continue _ _ _ _ Ht) as [Hle ->].
    assert (Hnext : uint8 (rc + 1) = rc + 1).
    { unfold uint8, RETRY_COUNT in *. apply Z.mod_small. lia. }
    inversion Ht; subst. clear Ht.
    rewrite Hnext in IH, Hout |- *.
    destruct (IH ltac:(unfold RETRY_COUNT in *; lia) retcode Hout Hna)
      as [delta [Hev Hn]].
    rewrite Hev. cbn [events]. rewrite <- app_assoc.
    eexists. split; [reflexivity|].
    rewrite connect_attempts_app. unfold connect_attempts at 1.
    cbn [filter is_connect List.length]. lia.
Qed.

(** X1: when [do_connect] returns a failure other than the
    authentication failure, it has called connect exactly five times: the
    fatal branch needs the counter above [RETRY_COUNT], which takes four
    failed attempts before the one that is fatal. *)
Theorem do_connect_fatal_after_five (w : World I) :
  fst (do_connect w) <> NSAPI_ERROR_OK ->
  fst (do_connect w) <> NSAPI_ERROR_AUTH_FAILURE ->
  connect_attempts (new_events w (snd (do_connect w))) = 5%nat.
Proof.
  intros Hok Hauth.
  destruct (do_connect_of_loop w) as [[r [Hloop [Hfst Hne]]]|[w' [_ Hdo]]].
  - pose proof (do_connect_loop_fatal_attempts 0 w) as Hfatal.
    rewrite Hloop in Hfatal. cbn [fst snd] in Hfatal.
    destruct (Hfatal ltac:(unfold RETRY_COUNT; lia) r eq_refl)
      as [delta [Hev Hn]]; [congruence|].
    rewrite (new_events_eq _ _ _ Hev). unfold RETRY_COUNT in Hn. lia.
  - rewrite Hdo in Hok. contradiction Hok. reflexivity.
Qed.

(** In the loop every failed call of connect is followed by one print,
    and nothing else is printed; a [return] leaves the failed call and
    its print as the last two events. *)
Lemma do_connect_loop_reports retry_counter (w : World I) :
  exists delta,
    events (snd (do_connect_loop retry_counter w)) = events w ++ delta /\
    count_events is_print delta = count_events is_failed_connect delta /\
    forall retcode,
      fst (do_connect_loop retry_counter w) = Return retcode ->
      exists before text,
        delta = before ++ [EvConnect retcode; EvPrint text].
Proof.
  apply (do_connect_loop_turns
           (fun rc w out => exists delta,
              events (snd out) = events w ++ delta /\
              count_events is_print delta
              = count_events is_failed_connect delta /\
              forall retcode,
                fst out = Return retcode ->
                exists before text,
                  delta = before ++ [EvConnect retcode; EvPrint text])).
  - intros rc w0 out Ht Hstop.
    inversion Ht; subst; cbn [fst snd events] in *.
    + exists []. rewrite app_nil_r. repeat split. discriminate.
    + eexists. split; [reflexivity|]. split; [reflexivity|].
      intros retcode Hr. inversion Hr; subst. exists []. eexists. reflexivity.
    + eexists. split; [reflexivity|]. split.
      * unfold count_events. simpl.
        destruct (Z.eqb_spec retcode NSAPI_ERROR_OK); [contradiction|].
        reflexivity.
      * intros r Hr. inversion Hr; subst. exists []. eexists. reflexivity.
    + exfalso. eapply Hstop. reflexivity.
    + eexists. split; [reflexivity|]. split; [reflexivity|]. discriminate.
  - intros rc w0 rc1 w1 Ht [delta [Hev [Hcount Hlast]]].
    inversion Ht; subst.
    rewrite Hev. cbn [events]. rewrite <- app_assoc.
    eexists. split; [reflexivity|]. split.
    + rewrite !count_events_app, Hcount. unfold count_events at 1 3. simpl.
      destruct (Z.eqb_spec retcode NSAPI_ERROR_OK); [contradiction|].
      reflexivity.
    + intros r Hr. destruct (Hlast r Hr) as [before [text ->]].
      eexists. exists text. rewrite app_assoc. reflexivity.
Qed.

(** X2: a failure code [do_connect] returns is the code of the last
    call of connect it made, and the print that reports it is the last
    event: no failure is returned that connect did not produce. *)
Theorem do_connect_failure_is_last_connect (w : World I) :
  fst (do_connect w) <> NSAPI_ERROR_OK ->
  exists before text,
    new_events w (snd (do_connect w))
    = before ++ [EvConnect (fst (do_connect w)); EvPrint text].
Proof.
  intros Hok.
  destruct (do_connect_of_loop w) as [[r [Hloop [Hfst Hne]]]|[w' [_ Hdo]]].
  - destruct (do_connect_loop_reports 0 w) as [delta [Hev [_ Hlast]]].
    rewrite Hloop in Hev, Hlast. cbn [fst snd] in Hev, Hlast.
    destruct (Hlast r eq_refl) as [before [text ->]].
    rewrite (new_events_eq _ _ _ Hev), Hfst.
    exists before, text. reflexivity.
  - rewrite Hdo in Hok. contradiction Hok. reflexivity.
Qed.

(** X3: [do_connect] prints once for each call of connect that failed,
    once more when it returns success, and nothing else. *)
Theorem do_connect_prints (w : World I) :
  count_events is_print (new_events w (snd (do_connect w))) =
  (count_events is_failed_connect (new_events w (snd (do_connect w)))
   + if (fst (do_connect w) =? NSAPI_ERROR_OK)%Z then 1 else 0)%nat.
Proof.
  destruct (do_connect_loop_reports 0 w) as [delta [Hev [Hcount _]]].
  destruct (do_connect_of_loop w) as [[r [Hloop [Hfst Hne]]]|[w' [Hloop Hdo]]].
  - rewrite Hloop in Hev. cbn [snd] in Hev.
    rewrite (new_events_eq _ _ _ Hev), Hfst, Hcount.
    destruct (Z.eqb_spec r NSAPI_ERROR_OK); [contradiction|]. lia.
  - rewrite Hloop in Hev. cbn [snd] in Hev. rewrite Hdo. cbn [fst snd].
    rewrite Hev, <- app_assoc, new_events_app, !count_events_app, Hcount.
    unfold count_events at 2 4. cbn. lia.
Qed.

(** X4: whatever the retry counter is, a turn of the loop in which
    connect returns [NSAPI_ERROR_OK] ends the loop at once, and
    [do_connect] returns success after announcing the connection and
    tracing the address: the failures before it are forgotten. *)
Theorem do_connect_success_exits
  rc0 (w0 : World I) retry_counter (w : World I) i' :
  loop_reaches rc0 w0 retry_counter w ->
  is_connected (iface w) = false ->
  connect (iface w) = (NSAPI_ERROR_OK, i') ->
  do_connect_loop rc0 w0 =
    (Break,
     mkWorld i' (print_text w) (events w ++ [EvConnect NSAPI_ERROR_OK])) /\
  (rc0 = 0 ->
   do_connect w0 =
     (NSAPI_ERROR_OK,
      mkWorld i' (print_text w)
        (events w ++ [EvConnect NSAPI_ERROR_OK; EvPrint text_established;
                      EvTrInfo (get_ip_address i')]))).
Proof.
  intros Hreach Hc Hconn.
  assert (Hloop : do_connect_loop rc0 w0 =
                  (Break,
                   mkWorld i' (print_text w)
                     (events w ++ [EvConnect NSAPI_ERROR_OK]))).
  { rewrite (loop_reaches_outcome _ _ _ _ Hreach), do_connect_loop_step.
    unfold do_connect_iteration, bind, query, call, ret.
    rewrite Hc. simpl. rewrite Hconn. reflexivity. }
  split; [exact Hloop|].
  intros ->. unfold do_connect. rewrite Hloop.
  unfold bind, print_function, emit, query, ret. simpl.
  rewrite !app_assoc_cons. reflexivity.
Qed.

(** X5: the loop tests [is_connected] before every attempt, so when
    the interface reports itself connected at the head of a later turn,
    [do_connect] returns success without another call of connect, even
    though the attempt before returned a failure. *)
Theorem do_connect_connected_meanwhile
  (w0 : World I) retry_counter (w : World I) :
  loop_reaches 0 w0 retry_counter w ->
  is_connected (iface w) = true ->
  do_connect w0 =
    (NSAPI_ERROR_OK,
     mkWorld (iface w) (print_text w)
       (events w ++ [EvPrint text_established;
                     EvTrInfo (get_ip_address (iface w))])).
Proof.
  intros Hreach Hc.
  unfold do_connect.
  rewrite (loop_reaches_outcome _ _ _ _ Hreach), do_connect_loop_step.
  unfold do_connect_iteration, bind, query, ret, print_function, emit.
  rewrite Hc. simpl. rewrite app_assoc_cons. reflexivity.
Qed.

(** The events between two turns of the loop: as many calls of connect
    as the counter went up, all of them failed. *)
Lemma loop_reaches_attempts rc0 (w0 : World I) rc w :
  loop_reaches rc0 w0 rc w ->
  0 <= rc0 <= RETRY_COUNT + 1 ->
  exists delta,
    events w = events w0 ++ delta /\
    Z.of_nat (connect_attempts delta) = rc - rc0 /\
    count_events is_failed_connect delta = connect_attempts delta.
Proof.
  induction 1 as [|rc0 w0 rc1 w1 rc w Hit _ IH]; intros Hrange.
  - exists []. rewrite app_nil_r. repeat split.
    unfold connect_attempts. cbn [filter List.length]. lia.
  - pose proof (do_connect_iteration_turn rc0 w0) as Ht. rewrite Hit in Ht.
    destruct (turn_continue _ _ _ _ Ht) as [Hle Hrc1].
    assert (Hnext : rc1 = rc0 + 1).
    { rewrite Hrc1. unfold uint8, RETRY_COUNT in *. apply Z.mod_small. lia. }
    destruct (IH ltac:(unfold RETRY_COUNT in *; lia))
      as [delta [Hev [Hn Hfailed]]].
    inversion Ht; subst rc1 w1.
    rewrite Hev. cbn [events]. rewrite <- app_assoc.
    eexists. split; [reflexivity|].
    rewrite connect_attempts_app, count_events_app, Hfailed.
    unfold connect_attempts at 1 3, count_events.
    cbn [filter is_connect is_failed_connect List.length app].
    match goal with
    | H : ?r <> NSAPI_ERROR_OK |- _ =>
        destruct (Z.eqb_spec r NSAPI_ERROR_OK); [contradiction|]
    end.
    cbn [negb filter List.length]. split; [lia|reflexivity].
Qed.

(** X6: at the head of every turn the retry counter is the number of
    calls of connect made so far, all of which failed; it lies between 0
    and [RETRY_COUNT + 1], so the [uint8_t] that holds it never wraps. *)
Theorem retry_counter_counts_failures
  (w0 : World I) retry_counter (w : World I) :
  loop_reaches 0 w0 retry_counter w ->
  0 <= retry_counter <= RETRY_COUNT + 1 /\
  uint8 (retry_counter + 1) = retry_counter + 1 /\
  exists delta,
    events w = events w0 ++ delta /\
    Z.of_nat (connect_attempts delta) = retry_counter /\
    count_events is_failed_connect delta = connect_attempts delta.
Proof.
  intros Hreach.
  assert (Hrange : 0 <= 0 <= RETRY_COUNT + 1) by (unfold RETRY_COUNT; lia).
  pose proof (loop_reaches_counter _ _ _ _ Hreach Hrange) as Hrc.
  split; [exact Hrc|]. split.
  - unfold uint8, RETRY_COUNT in *. apply Z.mod_small. lia.
  - destruct (loop_reaches_attempts _ _ _ _ Hreach Hrange)
      as [delta [Hev [Hn Hfailed]]].
    exists delta. repeat split; [exact Hev|lia|exact Hfailed].
Qed.

(** *** More on the echo transaction *)

(** [test_send_recv] only adds events. *)
Lemma test_send_recv_events cfg (w : World I) :
  events (snd (test_send_recv cfg w)) =
  events w ++ new_events w (snd (test_send_recv cfg w)).
Proof. echo_paths. all: reflexivity. Qed.

(** X8: the echo transaction never retries: open, resolve, connect,
    send, receive and close are each called at most once, open exactly
    once, the destructor of the socket runs exactly once, and connect of
    the interface is never called. *)
Theorem test_send_recv_calls_once cfg (w : World I) :
  Forall (fun p =>
            (count_events p (new_events w (snd (test_send_recv cfg w)))
             <= 1)%nat)
         [is_resolve; is_sock_connect; is_send; is_recv; is_sock_close] /\
  count_events is_sock_open
    (new_events w (snd (test_send_recv cfg w))) = 1%nat /\
  count_events is_sock_destroy
    (new_events w (snd (test_send_recv cfg w))) = 1%nat /\
  connect_attempts (new_events w (snd (test_send_recv cfg w))) = 0%nat.
Proof.
  echo_paths.
  all: unfold count_events, connect_attempts; simpl.
  all: repeat split; repeat constructor.
Qed.

(** X9: [test_send_recv] returns 0 or -1, and 0 exactly when no step
    failed and the receive call returned a positive count. *)
Theorem test_send_recv_success cfg (w : World I) :
  (fst (test_send_recv cfg w) = 0 \/ fst (test_send_recv cfg w) = -1) /\
  (fst (test_send_recv cfg w) = 0 <->
   existsb step_failed (new_events w (snd (test_send_recv cfg w))) = false /\
   existsb received_some (new_events w (snd (test_send_recv cfg w))) = true).
Proof.
  echo_paths.
  all: by_tests.
  all: split; [auto|].
  all: split; [intros H; try discriminate H; split; reflexivity|].
  all: intros [H1 H2]; try discriminate H1; try discriminate H2; reflexivity.
Qed.

(** X16: the transport chosen at build time decides the socket calls:
    the socket is opened with that type, a TCP build only uses connect,
    send and recv, a UDP build only sendto and recvfrom. *)
Theorem test_send_recv_transport cfg (w : World I) :
  (forall ty ret,
     In (EvSockOpen ty ret) (new_events w (snd (test_send_recv cfg w))) ->
     ty = MBED_CONF_APP_SOCK_TYPE cfg) /\
  count_events
    (match MBED_CONF_APP_SOCK_TYPE cfg with
     | TCP => is_datagram_call
     | UDP => is_stream_call
     end)
    (new_events w (snd (test_send_recv cfg w))) = 0%nat.
Proof.
  echo_paths.
  all: split; [|reflexivity].
  all: intros ty ret Hin; cbn [In] in Hin.
  all: repeat match goal with
              | H : _ \/ _ |- _ => destruct H
              | H : False |- _ => destruct H
              | H : _ = _ :> event |- _ => inversion H; clear H
              end.
  all: congruence.
Qed.

(** *** More on the entry point *)

Lemma count_events_none p q (l : list event) :
  (forall e, q e = true -> p e = false) ->
  forallb q l = true -> count_events p l = 0%nat.
Proof.
  intros Hpq. unfold count_events.
  induction l as [|e l IH]; simpl; [reflexivity|].
  intros H. apply andb_prop in H as [He Hl].
  rewrite (Hpq e He). apply IH. exact Hl.
Qed.

(** [do_connect] only calls connect, prints and traces. *)
Lemma do_connect_loop_phase retry_counter (w : World I) :
  exists delta,
    events (snd (do_connect_loop retry_counter w)) = events w ++ delta /\
    forallb connect_phase delta = true.
Proof.
  apply (do_connect_loop_turns
           (fun rc w out => exists delta,
              events (snd out) = events w ++ delta /\
              forallb connect_phase delta = true)).
  - intros rc w0 out Ht Hstop.
    inversion Ht; subst; cbn [fst snd events] in *;
      try (eexists; split; reflexivity).
    exists []. rewrite app_nil_r. split; reflexivity.
  - intros rc w0 rc1 w1 Ht [delta [Hev Hall]].
    inversion Ht; subst. rewrite Hev. cbn [events]. rewrite <- app_assoc.
    eexists. split; [reflexivity|].
    rewrite forallb_app, Hall. reflexivity.
Qed.

Lemma do_connect_phase (w : World I) :
  events (snd (do_connect w)) = events w ++ new_events w (snd (do_connect w))
  /\ forallb connect_phase (new_events w (snd (do_connect w))) = true.
Proof.
  destruct (do_connect_loop_phase 0 w) as [delta [Hev Hall]].
  destruct (do_connect_of_loop w) as [[r [Hloop _]]|[w' [Hloop Hdo]]].
  - rewrite Hloop in Hev. cbn [snd] in Hev.
    rewrite (new_events_eq _ _ _ Hev). split; assumption.
  - rewrite Hloop in Hev. cbn [snd] in Hev. rewrite Hdo. cbn [snd events].
    rewrite Hev, <- app_assoc, new_events_app. split; [reflexivity|].
    rewrite forallb_app, Hall. reflexivity.
Qed.

Lemma test_send_recv_phase cfg (w : World I) :
  forallb echo_phase (new_events w (snd (test_send_recv cfg w))) = true.
Proof. echo_paths. all: reflexivity. Qed.

(** What [main_setup] leaves. *)
Lemma main_setup_run cfg (w : World I) :
  events (snd (main_setup cfg w)) = events w ++ setup_events cfg.
Proof.
  unfold main_setup, setup_events, trace_open, bind, call_, print_function,
    emit, ret.
  destruct (MBED_CONF_MBED_TRACE_ENABLE cfg); simpl;
    repeat rewrite app_assoc_cons; reflexivity.
Qed.

(** [main] step by step. *)
Lemma main_run cfg (w : World I) :
  main cfg w =
  let w0 := snd (main_setup cfg w) in
  let w1 := snd (do_connect w0) in
  let w2 := snd (test_send_recv cfg w1) in
  if fst (do_connect w0) =? NSAPI_ERROR_OK then
    if fst (test_send_recv cfg w1) =? NSAPI_ERROR_OK then
      (0, add_events w2 [EvPrint text_success; EvTraceClose])
    else (-1, add_events w2 [EvPrint text_failure; EvTraceClose])
  else (-1, add_events w1 [EvPrint text_failure; EvTraceClose]).
Proof.
  cbv zeta. unfold main.
  destruct (main_setup cfg w) as [u w0] eqn:E0.
  rewrite (bind_eq _ _ _ _ _ E0). cbn [fst snd].
  destruct (do_connect w0) as [connected w1] eqn:E1.
  rewrite (bind_eq _ _ _ _ _ E1). cbn [fst snd].
  destruct (connected =? NSAPI_ERROR_OK).
  - destruct (test_send_recv cfg w1) as [retcode w2] eqn:E2.
    rewrite (bind_eq _ _ _ _ _ E2). cbn [fst snd].
    destruct (retcode =? NSAPI_ERROR_OK);
      unfold main_failure, trace_close, bind, print_function, emit, ret,
        add_events; simpl; rewrite app_assoc_cons; reflexivity.
  - unfold main_failure, trace_close, bind, print_function, emit, ret,
      add_events; simpl; rewrite app_assoc_cons; reflexivity.
Qed.

(** The events of [main]: those of the set-up, of [do_connect], of
    [test_send_recv] when the connection succeeded, then the verdict
    and the end of tracing. *)
Lemma main_events cfg (w : World I) :
  new_events w (snd (main cfg w)) =
  setup_events cfg
  ++ new_events (snd (main_setup cfg w))
       (snd (do_connect (snd (main_setup cfg w))))
  ++ (if fst (do_connect (snd (main_setup cfg w))) =? NSAPI_ERROR_OK
      then new_events (snd (do_connect (snd (main_setup cfg w))))
             (snd (test_send_recv cfg
                     (snd (do_connect (snd (main_setup cfg w))))))
      else [])
  ++ [EvPrint (if fst (main cfg w) =? 0 then text_success else text_failure);
      EvTraceClose].
Proof.
  rewrite main_run. cbv zeta.
  pose proof (main_setup_run cfg w) as H0.
  destruct (do_connect_phase (snd (main_setup cfg w))) as [H1 _].
  pose proof (test_send_recv_events cfg
                (snd (do_connect (snd (main_setup cfg w))))) as H2.
  destruct (fst (do_connect (snd (main_setup cfg w))) =? NSAPI_ERROR_OK).
  - destruct (fst (test_send_recv cfg _) =? NSAPI_ERROR_OK);
      cbn [fst snd]; apply new_events_eq; unfold add_events; cbn [events];
      rewrite H2, H1, H0, <- !app_assoc; reflexivity.
  - cbn [fst snd]. apply new_events_eq. unfold add_events. cbn [events].
    rewrite H1, H0, <- !app_assoc. reflexivity.
Qed.

Lemma setup_events_counts cfg :
  count_events is_trace_open (setup_events cfg) = 1%nat /\
  count_events is_trace_close (setup_events cfg) = 0%nat /\
  count_events is_network_call (setup_events cfg) = 0%nat /\
  count_events is_sock_open (setup_events cfg) = 0%nat /\
  connect_attempts (setup_events cfg) = 0%nat /\
  count_events is_thread_start (setup_events cfg) =
  (if MBED_CONF_MBED_TRACE_ENABLE cfg then 0 else 1)%nat.
Proof.
  unfold setup_events, count_events, connect_attempts.
  destruct (MBED_CONF_MBED_TRACE_ENABLE cfg); repeat split.
Qed.

Lemma test_send_recv_opens_once cfg (w : World I) :
  count_events is_sock_open (new_events w (snd (test_send_recv cfg w)))
  = 1%nat.
Proof. echo_paths. all: reflexivity. Qed.

(** X10: on every path [main] opens tracing first and closes it last,
    once each, and the print just before the end says Success exactly
    when the exit code is 0, Failure otherwise. *)
Theorem main_tracing_brackets cfg (w : World I) :
  (exists middle,
     new_events w (snd (main cfg w)) =
     EvTraceOpen :: middle
     ++ [EvPrint (if fst (main cfg w) =? 0 then text_success
                  else text_failure);
         EvTraceClose]) /\
  count_events is_trace_open (new_events w (snd (main cfg w))) = 1%nat /\
  count_events is_trace_close (new_events w (snd (main cfg w))) = 1%nat.
Proof.
  rewrite main_events.
  destruct (do_connect_phase (snd (main_setup cfg w))) as [_ Hphase].
  pose proof (test_send_recv_phase cfg
                (snd (do_connect (snd (main_setup cfg w))))) as Hecho.
  destruct (setup_events_counts cfg) as [Hopen [Hclose _]].
  assert (Hmid : forall p,
            (forall e, connect_phase e = true -> p e = false) ->
            (forall e, echo_phase e = true -> p e = false) ->
            count_events p
              (new_events (snd (main_setup cfg w))
                 (snd (do_connect (snd (main_setup cfg w))))
               ++ (if fst (do_connect (snd (main_setup cfg w)))
                      =? NSAPI_ERROR_OK
                   then new_events (snd (do_connect (snd (main_setup cfg w))))
                          (snd (test_send_recv cfg
                                  (snd (do_connect (snd (main_setup cfg w))))))
                   else [])) = 0%nat).
  { intros p Hc He. rewrite count_events_app.
    rewrite (count_events_none p connect_phase _ Hc Hphase).
    destruct (fst (do_connect (snd (main_setup cfg w))) =? NSAPI_ERROR_OK).
    - apply (count_events_none p echo_phase _ He Hecho).
    - reflexivity. }
  split; [|split].
  - match goal with
    | |- exists middle, _ ++ ?d1 ++ ?d2 ++ ?d3 = _ =>
        exists (tl (setup_events cfg) ++ d1 ++ d2);
        change (setup_events cfg)
          with (EvTraceOpen :: tl (setup_events cfg)) at 1
    end.
    cbn [app]. f_equal. rewrite <- !app_assoc. reflexivity.
  - rewrite count_events_app, Hopen, app_assoc, count_events_app, Hmid.
    + reflexivity.
    + intros [] H; try discriminate H; reflexivity.
    + intros [] H; try discriminate H; reflexivity.
  - rewrite count_events_app, Hclose, app_assoc, count_events_app, Hmid.
    + reflexivity.
    + intros [] H; try discriminate H; reflexivity.
    + intros [] H; try discriminate H; reflexivity.
Qed.

(** X11: [main] runs the echo transaction exactly when [do_connect]
    returned [NSAPI_ERROR_OK], and then once: after a failed connection
    it makes no call on the socket or the resolver. In all it calls
    connect at most five times. *)
Theorem main_echo_when_connected cfg (w : World I) :
  count_events is_sock_open (new_events w (snd (main cfg w))) =
  (if (fst (do_connect (snd (main_setup cfg w))) =? NSAPI_ERROR_OK)%Z
   then 1 else 0)%nat /\
  count_events is_network_call (new_events w (snd (main cfg w))) =
  (if (fst (do_connect (snd (main_setup cfg w))) =? NSAPI_ERROR_OK)%Z
   then count_events is_network_call
          (new_events (snd (do_connect (snd (main_setup cfg w))))
             (snd (test_send_recv cfg
                     (snd (do_connect (snd (main_setup cfg w)))))))
   else 0)%nat /\
  (connect_attempts (new_events w (snd (main cfg w))) <= 5)%nat.
Proof.
  rewrite main_events.
  destruct (do_connect_phase (snd (main_setup cfg w))) as [Hev Hphase].
  pose proof (test_send_recv_phase cfg
                (snd (do_connect (snd (main_setup cfg w))))) as Hecho.
  pose proof (test_send_recv_opens_once cfg
                (snd (do_connect (snd (main_setup cfg w))))) as Honce.
  destruct (setup_events_counts cfg) as [_ [_ [Hnet [Hso [Hconn _]]]]].
  destruct (do_connect_events (snd (main_setup cfg w))) as [delta [Hd Hfive]].
  rewrite (new_events_eq _ _ _ Hd) in *.
  split; [|split].
  - rewrite !count_events_app, Hso.
    rewrite (count_events_none is_sock_open connect_phase delta);
      [|intros [] H; try discriminate H; reflexivity|exact Hphase].
    destruct (fst (do_connect (snd (main_setup cfg w))) =? NSAPI_ERROR_OK);
      [rewrite Honce|]; reflexivity.
  - rewrite !count_events_app, Hnet.
    rewrite (count_events_none is_network_call connect_phase delta);
      [|intros [] H; try discriminate H; reflexivity|exact Hphase].
    destruct (fst (do_connect (snd (main_setup cfg w))) =? NSAPI_ERROR_OK);
      unfold count_events;
      cbn [filter is_network_call echo_phase List.length app]; lia.
  - rewrite !connect_attempts_app, Hconn.
    assert (Hnone : connect_attempts
                      (if fst (do_connect (snd (main_setup cfg w)))
                          =? NSAPI_ERROR_OK
                       then new_events
                              (snd (do_connect (snd (main_setup cfg w))))
                              (snd (test_send_recv cfg
                                      (snd (do_connect
                                              (snd (main_setup cfg w))))))
                       else []) = 0%nat).
    { destruct (fst (do_connect (snd (main_setup cfg w))) =? NSAPI_ERROR_OK);
        [|reflexivity].
      apply (count_events_none is_connect echo_phase); [|exact Hecho].
      intros [] H; try discriminate H; reflexivity. }
    rewrite Hnone.
    match goal with
    | |- context [connect_attempts [?a; ?b]] =>
        change (connect_attempts [a; b]) with 0%nat
    end.
    lia.
Qed.

(** X12: [main] starts the progress thread exactly when tracing is
    compiled out, once, and before any call of connect or of the
    network. *)
Theorem main_progress_thread cfg (w : World I) :
  count_events is_thread_start (new_events w (snd (main cfg w))) =
  (if MBED_CONF_MBED_TRACE_ENABLE cfg then 0 else 1)%nat /\
  forall before after,
    new_events w (snd (main cfg w)) = before ++ EvThreadStart :: after ->
    connect_attempts before = 0%nat /\
    count_events is_network_call before = 0%nat.
Proof.
  rewrite main_events.
  destruct (do_connect_phase (snd (main_setup cfg w))) as [_ Hphase].
  pose proof (test_send_recv_phase cfg
                (snd (do_connect (snd (main_setup cfg w))))) as Hecho.
  destruct (setup_events_counts cfg) as [_ [_ [Hnet [_ [Hconn Hts]]]]].
  set (d1 := new_events (snd (main_setup cfg w))
               (snd (do_connect (snd (main_setup cfg w))))) in *.
  set (d2 := if fst (do_connect (snd (main_setup cfg w))) =? NSAPI_ERROR_OK
             then new_events (snd (do_connect (snd (main_setup cfg w))))
                    (snd (test_send_recv cfg
                            (snd (do_connect (snd (main_setup cfg w))))))
             else []).
  set (d3 := [EvPrint (if fst (main cfg w) =? 0 then text_success
                       else text_failure); EvTraceClose]).
  assert (Hrest : count_events is_thread_start (d1 ++ d2 ++ d3) = 0%nat).
  { rewrite !count_events_app.
    rewrite (count_events_none is_thread_start connect_phase d1);
      [|intros [] H; try discriminate H; reflexivity|exact Hphase].
    assert (H2 : count_events is_thread_start d2 = 0%nat).
    { unfold d2.
      destruct (fst (do_connect (snd (main_setup cfg w))) =? NSAPI_ERROR_OK);
        [|reflexivity].
      apply (count_events_none is_thread_start echo_phase); [|exact Hecho].
      intros [] H; try discriminate H; reflexivity. }
    rewrite H2. reflexivity. }
  split.
  - rewrite count_events_app, Hts, Hrest. lia.
  - intros before after Hsplit.
    apply app_eq_app in Hsplit as [l [[Hs Hr]|[Hb Ha]]].
    + (* the thread start is within the set-up *)
      rewrite Hs in Hconn, Hnet.
      rewrite connect_attempts_app in Hconn.
      rewrite count_events_app in Hnet. lia.
    + (* or it is past the set-up, where there is none *)
      exfalso. rewrite Ha in Hrest.
      rewrite count_events_app in Hrest.
      unfold count_events at 2 in Hrest.
      cbn [filter is_thread_start List.length] in Hrest. lia.
Qed.

(** *** The size of the messages *)

Lemma string_length_append (s t : string) :
  String.length (s ++ t) = (String.length s + String.length t)%nat.
Proof.
  induction s as [|c s IH]; [reflexivity|].
  change (String c s ++ t)%string with (String c (s ++ t)%string).
  cbn [String.length]. rewrite IH. reflexivity.
Qed.

Lemma substring_length_le n (s : string) :
  (String.length (substring 0 n s) <= String.length s)%nat.
Proof.
  revert n. induction s as [|c s IH]; intros n.
  - destruct n; apply Nat.le_refl.
  - destruct n as [|n].
    + change (0 <= S (String.length s))%nat. lia.
    + change (S (String.length (substring 0 n s)) <= S (String.length s))%nat.
      specialize (IH n). lia.
Qed.

Lemma string_of_uint_length (d : Decimal.uint) :
  String.length (NilEmpty.string_of_uint d) = Decimal.nb_digits d.
Proof. induction d; cbn; congruence. Qed.

Lemma of_uint_acc_lower (d : Decimal.uint) (acc : positive) :
  Z.pos acc * 10 ^ Z.of_nat (Decimal.nb_digits d)
  <= Z.pos (Pos.of_uint_acc d acc).
Proof.
  revert acc.
  induction d as [|d IH|d IH|d IH|d IH|d IH|d IH|d IH|d IH|d IH|d IH];
    intros acc; cbn [Pos.of_uint_acc Decimal.nb_digits].
  1: { rewrite Z.mul_1_r. reflexivity. }
  all: rewrite Nat2Z.inj_succ, Z.pow_succ_r by lia.
  all: pose proof (Z.pow_nonneg 10 (Z.of_nat (Decimal.nb_digits d))
                     ltac:(lia)) as Hp.
  all: etransitivity; [|apply IH].
  all: nia.
Qed.

(** A positive number below [10 ^ k] has at most [k] digits. *)
Lemma to_uint_digits (p : positive) (k : nat) :
  Z.pos p < 10 ^ Z.of_nat k ->
  (Decimal.nb_digits (Pos.to_uint p) <= k)%nat.
Proof.
  intros Hlt.
  pose proof (DecimalPos.Unsigned.of_to p) as Hof.
  pose proof (DecimalPos.Unsigned.to_uint_nonzero p) as Hnz.
  assert (Hnorm : Decimal.unorm (Pos.to_uint p) = Pos.to_uint p).
  { rewrite <- (DecimalPos.Unsigned.to_of (Pos.to_uint p)), Hof. reflexivity. }
  destruct (Pos.to_uint p) as [|d|d|d|d|d|d|d|d|d|d] eqn:Hd.
  1: { cbn. lia. }
  1: { (* a leading zero is not normal *)
       exfalso. unfold Decimal.unorm in Hnorm.
       cbn [Decimal.nzhead] in Hnorm.
       pose proof (DecimalFacts.nb_digits_nzhead d) as Hlen.
       destruct (Decimal.nzhead d) eqn:Hh;
         [apply Hnz; rewrite <- Hnorm; reflexivity| ..];
         rewrite Hnorm in Hlen; cbn [Decimal.nb_digits] in Hlen; lia. }
  all: cbn [Pos.of_uint] in Hof; injection Hof as Hof.
  all: match type of Hof with
       | Pos.of_uint_acc _ ?a = _ =>
           pose proof (of_uint_acc_lower d a) as Hlow
       end.
  all: rewrite Hof in Hlow.
  all: cbn [Decimal.nb_digits].
  all: assert (Hpow : 10 ^ Z.of_nat (Decimal.nb_digits d) < 10 ^ Z.of_nat k)
         by (pose proof (Z.pow_nonneg 10 (Z.of_nat (Decimal.nb_digits d))
                           ltac:(lia)); nia).
  all: apply Z.pow_lt_mono_r_iff in Hpow; lia.
Qed.

(** [%d] of a 32-bit [int] takes at most 11 characters. *)
Lemma fmt_d_length (z : Z) :
  in_int z = true -> (String.length (fmt_d z) <= 11)%nat.
Proof.
  unfold in_int. intros Hz. apply andb_prop in Hz as [Hlo Hhi].
  apply Z.leb_le in Hlo. apply Z.ltb_lt in Hhi.
  unfold fmt_d.
  destruct z as [|p|p]; [cbn; lia| |];
    cbn [Z.to_int NilZero.string_of_int]; unfold NilZero.string_of_uint;
    pose proof (to_uint_digits p 10 ltac:(lia)) as Hd;
    pose proof (DecimalPos.Unsigned.to_uint_nonnil p) as Hnn;
    (destruct (Pos.to_uint p) eqn:E; [contradiction| ..]);
    cbn [String.length]; rewrite string_of_uint_length; lia.
Qed.

(** Bound the length of a message from its parts. *)
Ltac message_fits :=
  apply Nat.ltb_lt;
  eapply Nat.le_lt_trans; [apply substring_length_le|];
  repeat rewrite string_length_append;
  unfold host_name, LF; cbn [String.length];
  repeat match goal with
         | Hc : in_int ?r = true |- _ =>
             pose proof (fmt_d_length r Hc); clear Hc
         end;
  lia.

Ltac split_codes H :=
  repeat match type of H with
         | (_ && _) = true =>
             let Hc := fresh "Hcode" in apply andb_prop in H as [Hc H]
         end.

Lemma text_retry_whole retcode :
  in_int retcode = true ->
  (String.length (text_retry retcode) <? PRINT_TEXT_LENGTH - 1)%nat = true.
Proof. intros H. unfold text_retry, PRINT_TEXT_LENGTH. message_fits. Qed.

Lemma text_fatal_whole retcode :
  in_int retcode = true ->
  (String.length (text_fatal retcode) <? PRINT_TEXT_LENGTH - 1)%nat = true.
Proof. intros H. unfold text_fatal, PRINT_TEXT_LENGTH. message_fits. Qed.

Lemma do_connect_loop_whole retry_counter (w : World I) :
  exists delta,
    events (snd (do_connect_loop retry_counter w)) = events w ++ delta /\
    (forallb int_codes delta = true -> forallb printed_whole delta = true).
Proof.
  apply (do_connect_loop_turns
           (fun rc w out => exists delta,
              events (snd out) = events w ++ delta /\
              (forallb int_codes delta = true ->
               forallb printed_whole delta = true))).
  - intros rc w0 out Ht Hstop.
    inversion Ht; subst; cbn [fst snd events] in *.
    + exists []. rewrite app_nil_r. split; reflexivity.
    + eexists. split; [reflexivity|]. intros _. reflexivity.
    + eexists. split; [reflexivity|]. cbn [forallb int_codes printed_whole].
      intros Hc. split_codes Hc. rewrite text_fatal_whole by assumption.
      reflexivity.
    + exfalso. eapply Hstop. reflexivity.
    + eexists. split; [reflexivity|]. intros _. reflexivity.
  - intros rc w0 rc1 w1 Ht [delta [Hev Hall]].
    inversion Ht; subst. rewrite Hev. cbn [events]. rewrite <- app_assoc.
    eexists. split; [reflexivity|].
    rewrite !forallb_app. cbn [forallb int_codes printed_whole].
    intros Hc. apply andb_prop in Hc as [Hc Hrest]. split_codes Hc.
    rewrite text_retry_whole by assumption. apply Hall. exact Hrest.
Qed.

Lemma do_connect_whole (w : World I) :
  forallb int_codes (new_events w (snd (do_connect w))) = true ->
  forallb printed_whole (new_events w (snd (do_connect w))) = true.
Proof.
  destruct (do_connect_loop_whole 0 w) as [delta [Hev Hall]].
  destruct (do_connect_of_loop w) as [[r [Hloop _]]|[w' [Hloop Hdo]]].
  - rewrite Hloop in Hev. cbn [snd] in Hev.
    rewrite (new_events_eq _ _ _ Hev). exact Hall.
  - rewrite Hloop in Hev. cbn [snd] in Hev. rewrite Hdo. cbn [snd events].
    rewrite Hev, <- app_assoc, new_events_app, !forallb_app.
    intros Hc. apply andb_prop in Hc as [Hc _]. rewrite (Hall Hc).
    reflexivity.
Qed.

Lemma test_send_recv_whole cfg (w : World I) :
  forallb int_codes (new_events w (snd (test_send_recv cfg w))) = true ->
  forallb printed_whole (new_events w (snd (test_send_recv cfg w))) = true.
Proof.
  echo_paths.
  all: cbn [forallb int_codes printed_whole]; unfold PRINT_TEXT_LENGTH.
  all: intros Hc; split_codes Hc.
  all: repeat (apply andb_true_intro; split); try reflexivity.
  all: message_fits.
Qed.

Lemma setup_events_whole cfg :
  forallb printed_whole (setup_events cfg) = true.
Proof.
  unfold setup_events. destruct (MBED_CONF_MBED_TRACE_ENABLE cfg);
    reflexivity.
Qed.

(** X13: when the codes the interface returns fit a 32-bit [int], every
    text [main] prints is shorter than the [PRINT_TEXT_LENGTH - 1]
    characters [print_text] holds: [snprintf] never cuts a message. *)
Theorem main_prints_whole cfg (w : World I) :
  forallb int_codes (new_events w (snd (main cfg w))) = true ->
  forallb printed_whole (new_events w (snd (main cfg w))) = true.
Proof.
  rewrite main_events, !forallb_app.
  intros Hc.
  apply andb_prop in Hc as [_ Hc]. apply andb_prop in Hc as [H1 Hc].
  apply andb_prop in Hc as [H2 _].
  rewrite setup_events_whole, (do_connect_whole _ H1).
  assert (Hecho : forallb printed_whole
            (if fst (do_connect (snd (main_setup cfg w))) =? NSAPI_ERROR_OK
             then new_events (snd (do_connect (snd (main_setup cfg w))))
                    (snd (test_send_recv cfg
                            (snd (do_connect (snd (main_setup cfg w))))))
             else []) = true).
  { destruct (fst (do_connect (snd (main_setup cfg w))) =? NSAPI_ERROR_OK);
      [apply test_send_recv_whole; exact H2|reflexivity]. }
  rewrite Hecho.
  destruct (fst (main cfg w) =? 0); reflexivity.
Qed.

(** *** More on the progress indicator *)

(** X14: the progress thread only sleeps and prints markers: it never
    calls connect or the network and never writes [print_text], and the
    interface is what as many sleeps of 4 seconds as it made have left
    of it. *)
Theorem dot_event_only_sleeps (cycles : nat) (w : World I) :
  exists delta,
    events (snd (dot_event cycles w)) = events w ++ delta /\
    forallb is_dot delta = true /\
    (count_events is_wait delta <= cycles)%nat /\
    iface (snd (dot_event cycles w)) =
      Nat.iter (count_events is_wait delta) (elapse 4) (iface w) /\
    print_text (snd (dot_event cycles w)) = print_text w.
Proof.
  revert w. induction cycles as [|n IH]; intros w.
  - exists []. cbn. rewrite app_nil_r. repeat split. lia.
  - cbn [dot_event]. unfold bind at 1 2 3.
    unfold dot_event_cycle, bind, call_, query, ret, print_function, emit.
    cbn [fst snd iface print_text events].
    destruct (is_connected (elapse 4 (iface w))) eqn:Hc;
      cbn [negb fst snd iface print_text events].
    + exists [EvWait 4]. unfold count_events. cbn. repeat split. lia.
    + match goal with
      | |- context [dot_event n ?v] =>
          destruct (IH v) as [delta [Hev [Hdots [Hle [Hif Hpt]]]]]
      end.
      cbn [iface print_text events] in *.
      exists (EvWait 4 :: EvPrint "." :: delta).
      rewrite Hev, Hif, Hpt. rewrite <- !app_assoc.
      unfold count_events in *. cbn [filter is_wait List.length app].
      repeat split.
      * cbn. exact Hdots.
      * lia.
      * rewrite Nat.iter_succ_r. reflexivity.
Qed.

End Facts.

(** ** Runs on the scripted modem *)

(** The scripted modem keeps the contract of the interface. *)
Lemma sim_connect_ok_connected (i i' : Sim.modem) :
  connect i = (NSAPI_ERROR_OK, i') -> is_connected i' = true.
Proof.
  simpl. unfold Sim.sim_connect.
  destruct (Sim.connect_results i) as [|r rest]; intros H.
  - discriminate H.
  - inversion H; subst. reflexivity.
Qed.

(** C1: on a modem that is never connected and whose every connect
    fails with [NSAPI_ERROR_NO_CONNECTION], [do_connect] calls connect
    five times (a first attempt and four retries, not four calls in
    all), returns that failure, and [main] returns -1. *)
Theorem do_connect_stubborn_five_attempts :
  connect_attempts
    (events (snd (do_connect (Sim.boot Sim.stubborn)))) = 5%nat /\
  connect_attempts
    (events (snd (do_connect (Sim.boot Sim.stubborn)))) <> 4%nat /\
  fst (do_connect (Sim.boot Sim.stubborn)) = NSAPI_ERROR_NO_CONNECTION /\
  fst (main Sim.cfg_tcp (Sim.boot Sim.stubborn)) = -1.
Proof. vm_compute. repeat split. discriminate. Qed.

Lemma test_send_recv_abort_witness :
  fst (test_send_recv Sim.cfg_tcp (Sim.boot Sim.dns_down)) = -1 /\
  existsb is_recv
    (new_events (Sim.boot Sim.dns_down)
       (snd (test_send_recv Sim.cfg_tcp (Sim.boot Sim.dns_down)))) = false /\
  socket_open_after false
    (new_events (Sim.boot Sim.dns_down)
       (snd (test_send_recv Sim.cfg_tcp (Sim.boot Sim.dns_down)))) = false /\
  (exists before,
     new_events (Sim.boot Sim.dns_down)
       (snd (test_send_recv Sim.cfg_tcp (Sim.boot Sim.dns_down)))
     = before ++ [EvSockDestroy]) /\
  (existsb setup_failed
     (new_events (Sim.boot Sim.dns_down)
        (snd (test_send_recv Sim.cfg_tcp (Sim.boot Sim.dns_down)))) = true ->
   existsb is_send
     (new_events (Sim.boot Sim.dns_down)
        (snd (test_send_recv Sim.cfg_tcp (Sim.boot Sim.dns_down)))) = false).
Proof.
  apply (test_send_recv_abort Sim.cfg_tcp (Sim.boot Sim.dns_down)).
  vm_compute. reflexivity.
Defined.

Lemma do_connect_ok_cause_witness :
  do_connect (Sim.boot (Sim.healthy [NSAPI_ERROR_NO_CONNECTION;
                                     NSAPI_ERROR_OK])) =
    (NSAPI_ERROR_OK,
     snd (do_connect (Sim.boot (Sim.healthy [NSAPI_ERROR_NO_CONNECTION;
                                             NSAPI_ERROR_OK])))) /\
  is_connected
    (iface (snd (do_connect
                   (Sim.boot (Sim.healthy [NSAPI_ERROR_NO_CONNECTION;
                                           NSAPI_ERROR_OK]))))) = true /\
  exists before,
    new_events
      (Sim.boot (Sim.healthy [NSAPI_ERROR_NO_CONNECTION; NSAPI_ERROR_OK]))
      (snd (do_connect
              (Sim.boot (Sim.healthy [NSAPI_ERROR_NO_CONNECTION;
                                      NSAPI_ERROR_OK])))) =
    before ++ [EvPrint text_established; EvTrInfo (Some "10.64.0.2")].
Proof.
  assert (Hdo :
    do_connect (Sim.boot (Sim.healthy [NSAPI_ERROR_NO_CONNECTION;
                                       NSAPI_ERROR_OK])) =
      (NSAPI_ERROR_OK,
       snd (do_connect (Sim.boot (Sim.healthy [NSAPI_ERROR_NO_CONNECTION;
                                               NSAPI_ERROR_OK])))))
    by (vm_compute; reflexivity).
  destruct (do_connect_ok_cause _ _ Hdo) as [Hlast [_ Hcontract]].
  split; [exact Hdo|]. split; [|exact Hlast].
  apply Hcontract. intros i i' _. apply sim_connect_ok_connected.
Defined.

(** On the modem that reports success without a link, [do_connect]
    returns [NSAPI_ERROR_OK] after one call of connect, although the
    interface does not report itself connected and has no address: the
    trace carries none. *)
Lemma do_connect_ok_not_connected :
  fst (do_connect Liar.boot) = NSAPI_ERROR_OK /\
  is_connected (iface (snd (do_connect Liar.boot))) = false /\
  get_ip_address (iface (snd (do_connect Liar.boot))) = None /\
  events (snd (do_connect Liar.boot)) =
    [EvConnect NSAPI_ERROR_OK; EvPrint text_established; EvTrInfo None].
Proof. vm_compute. repeat split. Qed.

Lemma test_send_recv_result_witness :
  (fst (test_send_recv Sim.cfg_tcp (Sim.boot Sim.online)) = 0 <-> 4 > 0) /\
  (4 <= 0 -> fst (test_send_recv Sim.cfg_tcp (Sim.boot Sim.online)) = -1) /\
  (fst (test_send_recv Sim.cfg_tcp (Sim.boot Sim.online)) = 0 \/
   fst (test_send_recv Sim.cfg_tcp (Sim.boot Sim.online)) = -1).
Proof.
  apply (test_send_recv_result Sim.cfg_tcp (Sim.boot Sim.online) 4 4).
  left. vm_compute. auto 20.
Defined.

(** The state of the loop after a first attempt that failed with
    [NSAPI_ERROR_NO_CONNECTION], the second attempt still to come. *)
Lemma sim_second_turn :
  loop_reaches 0
    (Sim.boot (Sim.healthy [NSAPI_ERROR_NO_CONNECTION;
                            NSAPI_ERROR_AUTH_FAILURE]))
    1
    (mkWorld (Sim.healthy [NSAPI_ERROR_AUTH_FAILURE])
       (text_retry NSAPI_ERROR_NO_CONNECTION)
       [EvConnect NSAPI_ERROR_NO_CONNECTION;
        EvPrint (text_retry NSAPI_ERROR_NO_CONNECTION)]).
Proof.
  eapply reaches_turn; [|apply reaches_start]. reflexivity.
Qed.

Lemma do_connect_auth_failure_exits_witness :
  do_connect
    (Sim.boot (Sim.healthy [NSAPI_ERROR_NO_CONNECTION;
                            NSAPI_ERROR_AUTH_FAILURE])) =
  (NSAPI_ERROR_AUTH_FAILURE,
   mkWorld (Sim.healthy []) (text_retry NSAPI_ERROR_NO_CONNECTION)
     [EvConnect NSAPI_ERROR_NO_CONNECTION;
      EvPrint (text_retry NSAPI_ERROR_NO_CONNECTION);
      EvConnect NSAPI_ERROR_AUTH_FAILURE;
      EvPrint text_auth_failure]).
Proof.
  exact (proj1 (proj2 (do_connect_auth_failure_exits
                         0 _ 1 _ (Sim.healthy [])
                         sim_second_turn eq_refl eq_refl)) eq_refl).
Defined.

Lemma test_send_recv_wire_witness :
  (Forall (wire_ok (mkSocketAddress (Some "52.215.34.155") 7))
          (new_events (Sim.boot Sim.online)
             (snd (test_send_recv Sim.cfg_udp (Sim.boot Sim.online)))) /\
   In (EvSockSendTo (mkSocketAddress (Some "52.215.34.155") 7) "TEST" 4)
      (new_events (Sim.boot Sim.online)
         (snd (test_send_recv Sim.cfg_udp (Sim.boot Sim.online)))) /\
   In (EvSockRecvFrom 4 4)
      (new_events (Sim.boot Sim.online)
         (snd (test_send_recv Sim.cfg_udp (Sim.boot Sim.online))))) /\
  (In (EvSockConnect (mkSocketAddress (Some "52.215.34.155") 7) 0)
      (new_events (Sim.boot Sim.online)
         (snd (test_send_recv Sim.cfg_tcp (Sim.boot Sim.online)))) /\
   In (EvSockSend "TEST" 4)
      (new_events (Sim.boot Sim.online)
         (snd (test_send_recv Sim.cfg_tcp (Sim.boot Sim.online)))) /\
   In (EvSockRecv 4 4)
      (new_events (Sim.boot Sim.online)
         (snd (test_send_recv Sim.cfg_tcp (Sim.boot Sim.online))))).
Proof.
  assert (Hpos : forall z, z = 0 \/ z = 4 -> 0 <= z)
    by (intros z [->| ->]; discriminate).
  pose proof (test_send_recv_wire Sim.cfg_udp (Sim.boot Sim.online) eq_refl)
    as [Hall [_ [_ [Hudp _]]]].
  pose proof (test_send_recv_wire Sim.cfg_tcp (Sim.boot Sim.online) eq_refl)
    as [_ [_ [_ [Htcp _]]]].
  destruct (Hudp eq_refl eq_refl) as [Hsent Hrecv].
  destruct (Htcp eq_refl eq_refl) as [Hconn Hnext].
  destruct (Hnext (Hpos _ (or_introl eq_refl))) as [Hsent' Hrecv'].
  split; [split; [exact Hall|split; [exact Hsent|]]
         |split; [exact Hconn|split; [exact Hsent'|]]].
  - exact (Hrecv (Hpos _ (or_intror eq_refl))).
  - exact (Hrecv' (Hpos _ (or_intror eq_refl))).
Defined.

Lemma do_connect_already_connected_witness :
  do_connect (Sim.boot Sim.online) =
    (NSAPI_ERROR_OK,
     mkWorld Sim.online ""
       [EvPrint text_established; EvTrInfo (Some "10.64.0.2")]) /\
  iface (snd (do_connect (Sim.boot Sim.online))) = Sim.online /\
  connect_attempts
    (new_events (Sim.boot Sim.online)
       (snd (do_connect (Sim.boot Sim.online)))) = 0%nat.
Proof.
  exact (do_connect_already_connected (Sim.boot Sim.online) eq_refl).
Defined.

(** The modem connects at the second attempt: [do_connect] has called
    connect twice, and [main] returns 0 after an echo of 4 bytes, over
    TCP and over UDP. *)
Example main_connects_at_second_attempt :
  connect_attempts
    (events (snd (do_connect
                    (Sim.boot (Sim.healthy [NSAPI_ERROR_NO_CONNECTION;
                                            NSAPI_ERROR_OK]))))) = 2%nat /\
  fst (main Sim.cfg_tcp
         (Sim.boot (Sim.healthy [NSAPI_ERROR_NO_CONNECTION;
                                 NSAPI_ERROR_OK]))) = 0 /\
  fst (main Sim.cfg_udp
         (Sim.boot (Sim.healthy [NSAPI_ERROR_NO_CONNECTION;
                                 NSAPI_ERROR_OK]))) = 0.
Proof. vm_compute. repeat split. Qed.

(** When the name cannot be resolved the transaction returns -1, has
    neither sent nor received, and leaves the socket of the modem
    closed. *)
Example test_send_recv_dns_down :
  fst (test_send_recv Sim.cfg_tcp (Sim.boot Sim.dns_down)) = -1 /\
  existsb (fun e => is_send e || is_recv e)
    (events (snd (test_send_recv Sim.cfg_tcp (Sim.boot Sim.dns_down))))
  = false /\
  Sim.socket_opened
    (iface (snd (test_send_recv Sim.cfg_tcp (Sim.boot Sim.dns_down))))
  = false.
Proof. vm_compute. repeat split. Qed.

(** The progress indicator beside a modem whose link comes up during
    the third sleep: two markers, then it terminates. *)
Example dot_event_waking :
  dot_event 10 (Sim.boot Sim.waking) =
  (Terminated,
   mkWorld (Sim.with_changes Sim.waking [] true) ""
     [EvWait 4; EvPrint "."; EvWait 4; EvPrint "."; EvWait 4]).
Proof. reflexivity. Qed.

(** ** More runs *)

Lemma do_connect_fatal_after_five_witness :
  connect_attempts
    (new_events (Sim.boot Sim.stubborn)
       (snd (do_connect (Sim.boot Sim.stubborn)))) = 5%nat.
Proof.
  apply (do_connect_fatal_after_five (Sim.boot Sim.stubborn));
    vm_compute; discriminate.
Defined.

Lemma do_connect_failure_is_last_connect_witness :
  exists before text,
    new_events (Sim.boot (Sim.healthy [NSAPI_ERROR_AUTH_FAILURE]))
      (snd (do_connect (Sim.boot (Sim.healthy [NSAPI_ERROR_AUTH_FAILURE]))))
    = before
      ++ [EvConnect
            (fst (do_connect
                    (Sim.boot (Sim.healthy [NSAPI_ERROR_AUTH_FAILURE]))));
          EvPrint text].
Proof.
  apply (do_connect_failure_is_last_connect
           (Sim.boot (Sim.healthy [NSAPI_ERROR_AUTH_FAILURE]))).
  vm_compute. discriminate.
Defined.

(** The state of the loop after a first attempt that failed, before a
    second that will succeed. *)
Lemma sim_second_turn_ok :
  loop_reaches 0
    (Sim.boot (Sim.healthy [NSAPI_ERROR_NO_CONNECTION; NSAPI_ERROR_OK]))
    1
    (mkWorld (Sim.healthy [NSAPI_ERROR_OK])
       (text_retry NSAPI_ERROR_NO_CONNECTION)
       [EvConnect NSAPI_ERROR_NO_CONNECTION;
        EvPrint (text_retry NSAPI_ERROR_NO_CONNECTION)]).
Proof.
  eapply reaches_turn; [|apply reaches_start]. reflexivity.
Qed.

Lemma do_connect_success_exits_witness :
  do_connect
    (Sim.boot (Sim.healthy [NSAPI_ERROR_NO_CONNECTION; NSAPI_ERROR_OK])) =
  (NSAPI_ERROR_OK,
   mkWorld (Sim.with_link (Sim.healthy []) [] true)
     (text_retry NSAPI_ERROR_NO_CONNECTION)
     [EvConnect NSAPI_ERROR_NO_CONNECTION;
      EvPrint (text_retry NSAPI_ERROR_NO_CONNECTION);
      EvConnect NSAPI_ERROR_OK;
      EvPrint text_established;
      EvTrInfo (Some "10.64.0.2")]).
Proof.
  exact (proj2 (do_connect_success_exits
                  0 _ 1 _ (Sim.with_link (Sim.healthy []) [] true)
                  sim_second_turn_ok eq_refl eq_refl) eq_refl).
Defined.

(** The modem that gives up too early, after its first attempt. *)
Lemma late_second_turn :
  loop_reaches 0 Late.boot 1
    (mkWorld (Late.mkModem true) (text_retry NSAPI_ERROR_NO_CONNECTION)
       [EvConnect NSAPI_ERROR_NO_CONNECTION;
        EvPrint (text_retry NSAPI_ERROR_NO_CONNECTION)]).
Proof.
  eapply reaches_turn; [|apply reaches_start]. reflexivity.
Qed.

Lemma do_connect_connected_meanwhile_witness :
  do_connect Late.boot =
  (NSAPI_ERROR_OK,
   mkWorld (Late.mkModem true) (text_retry NSAPI_ERROR_NO_CONNECTION)
     [EvConnect NSAPI_ERROR_NO_CONNECTION;
      EvPrint (text_retry NSAPI_ERROR_NO_CONNECTION);
      EvPrint text_established;
      EvTrInfo (Some "10.64.0.3")]).
Proof.
  exact (do_connect_connected_meanwhile _ 1 _ late_second_turn eq_refl).
Defined.

Lemma retry_counter_counts_failures_witness :
  0 <= 1 <= RETRY_COUNT + 1 /\
  uint8 (1 + 1) = 1 + 1 /\
  exists delta,
    [EvConnect NSAPI_ERROR_NO_CONNECTION;
     EvPrint (text_retry NSAPI_ERROR_NO_CONNECTION)] = [] ++ delta /\
    Z.of_nat (connect_attempts delta) = 1 /\
    count_events is_failed_connect delta = connect_attempts delta.
Proof.
  exact (retry_counter_counts_failures _ 1 _ sim_second_turn).
Defined.

Lemma main_prints_whole_witness :
  forallb printed_whole
    (new_events (Sim.boot (Sim.healthy [NSAPI_ERROR_NO_CONNECTION;
                                        NSAPI_ERROR_OK]))
       (snd (main Sim.cfg_tcp
               (Sim.boot (Sim.healthy [NSAPI_ERROR_NO_CONNECTION;
                                       NSAPI_ERROR_OK]))))) = true.
Proof.
  apply (main_prints_whole Sim.cfg_tcp
           (Sim.boot (Sim.healthy [NSAPI_ERROR_NO_CONNECTION;
                                   NSAPI_ERROR_OK]))).
  vm_compute. reflexivity.
Defined.

Lemma do_connect_never_connects_witness :
  fst (do_connect Dead.boot) <> NSAPI_ERROR_OK /\
  connect_attempts (new_events Dead.boot (snd (do_connect Dead.boot)))
  = 5%nat /\
  fst (main Sim.cfg_udp Dead.boot) = -1.
Proof.
  apply (do_connect_never_connects (I := Dead.modem)).
  - intros i. reflexivity.
  - intros i. split; discriminate.
Defined.
